(** * RFM segmentation of the online retail sales log

    A shallow embedding of [OnlineGlobalRetail.py] (and of its twin
    [OnlineRetail.py], whose cleaning and RFM steps are the same statements):
    Step 3 (data cleaning), Step 4 (the [TotalPrice] column) and Step 10
    (customer segmentation with Recency, Frequency and Monetary deciles).

    Conventions of the embedding.
    - A DataFrame is the list of its rows, in index order.
    - [float64] columns ([UnitPrice], [TotalPrice], [Monetary], the bin edges
      of [pd.qcut]) are exact rationals [Q] in the main development.  Two
      rationals are the same number when they are [Qeq]-related, which is
      how every comparison of the code is read.  The general theorems are
      those whose statements do not turn on the last digit of a sum or of
      an interpolated edge.  Where rounding decides the outcome the same
      statements are evaluated in binary64, in the module [Binary64].
    - [NaN] in the [CustomerID] and [Description] columns is [None].
    - [InvoiceDate] is the value [pd.to_datetime] yields, counted in
      nanoseconds since the epoch as [datetime64[ns]] does.
    - A raised Python exception is a value [Err] carrying the class name
      and the message. *)

From Stdlib Require Import ZArith QArith Qround Lqa Lia.
From Stdlib Require Import List String Ascii Bool Permutation SetoidList Sorted.
From Stdlib Require Import DecimalString.
From Stdlib Require PrimFloat Uint63.
Import ListNotations.

Local Open Scope string_scope.
Local Open Scope list_scope.
Local Open Scope Q_scope.
Local Open Scope Z_scope.

(** ** Python exceptions *)

Record exception : Type := Raise { exn_class : string; exn_msg : string }.

Inductive result (A : Type) : Type :=
| Ok (a : A)
| Err (e : exception).
Arguments Ok {A} a.
Arguments Err {A} e.

Definition bind {A B : Type} (r : result A) (k : A -> result B) : result B :=
  match r with
  | Ok a => k a
  | Err e => Err e
  end.

Notation "x <- r ;; k" := (bind r (fun x => k))
  (at level 61, r at next level, right associativity).

Definition completes {A : Type} (r : result A) : Prop :=
  exists a, r = Ok a.

Definition fails_with {A : Type} (cls : string) (r : result A) : Prop :=
  exists msg, r = Err (Raise cls msg).

(** ** The transaction table *)

Record Row : Type := mkRow {
  InvoiceNo : string;
  Description : option string;
  Quantity : Z;
  InvoiceDate : Z;
  UnitPrice : Q;
  CustomerID : option Z;
  Country : string
}.

(** The frame after Step 4: the columns read from the file and [TotalPrice]. *)
Record Txn : Type := mkTxn {
  row :> Row;
  TotalPrice : Q
}.

Definition Qlt_bool (a b : Q) : bool := negb (Qle_bool b a).

Definition option_eqb {A : Type} (eqb : A -> A -> bool) (a b : option A)
  : bool :=
  match a, b with
  | None, None => true
  | Some x, Some y => eqb x y
  | _, _ => false
  end.

(** Two rows are exact duplicates when every column agrees ([NaN] cells
    count as equal, as [DataFrame.duplicated] has it). *)
Definition row_eqb (r s : Row) : bool :=
  String.eqb (InvoiceNo r) (InvoiceNo s)
  && option_eqb String.eqb (Description r) (Description s)
  && Z.eqb (Quantity r) (Quantity s)
  && Z.eqb (InvoiceDate r) (InvoiceDate s)
  && Qeq_bool (UnitPrice r) (UnitPrice s)
  && option_eqb Z.eqb (CustomerID r) (CustomerID s)
  && String.eqb (Country r) (Country s).

Definition duplicate_rows (r s : Row) : Prop := row_eqb r s = true.

Module Pandas.

(** [df.drop_duplicates()], [keep='first']: a row is kept unless an
    earlier row equals it. *)
Fixpoint drop_duplicates_from (seen df : list Row) : list Row :=
  match df with
  | [] => []
  | r :: rest =>
      if existsb (row_eqb r) seen
      then drop_duplicates_from seen rest
      else r :: drop_duplicates_from (r :: seen) rest
  end.

Definition drop_duplicates (df : list Row) : list Row :=
  drop_duplicates_from [] df.

Definition notna {A : Type} (c : option A) : bool :=
  match c with
  | Some _ => true
  | None => false
  end.

(** *** [groupby(key)[column].agg()]

    The groups are keyed by the non-null keys and come out in ascending key
    order ([sort=True], [dropna=True]).  A group's aggregate starts from the
    first value seen for its key and absorbs the later ones in row order. *)
Section GroupBy.
Context {V A : Type}.
Variable init : V -> A.
Variable step : A -> V -> A.

Fixpoint upsert (k : Z) (v : V) (m : list (Z * A)) : list (Z * A) :=
  match m with
  | [] => [(k, init v)]
  | (k', a) :: m' =>
      if k <? k' then (k, init v) :: m
      else if k =? k' then (k', step a v) :: m'
      else (k', a) :: upsert k v m'
  end.

Fixpoint groupby_from (m : list (Z * A)) (rows : list (option Z * V))
  : list (Z * A) :=
  match rows with
  | [] => m
  | (None, _) :: rest => groupby_from m rest
  | (Some k, v) :: rest => groupby_from (upsert k v m) rest
  end.

Definition groupby_agg (rows : list (option Z * V)) : list (Z * A) :=
  groupby_from [] rows.
End GroupBy.

Definition groupby_max : list (option Z * Z) -> list (Z * Z) :=
  groupby_agg (fun v => v) Z.max.

Definition groupby_sum : list (option Z * Q) -> list (Z * Q) :=
  groupby_agg (fun v => v) Qplus.

Definition add_unique (seen : list string) (v : string) : list string :=
  if existsb (String.eqb v) seen then seen else v :: seen.

Definition groupby_nunique (rows : list (option Z * string)) : list (Z * Z) :=
  map (fun kv => (fst kv, Z.of_nat (length (snd kv))))
      (groupby_agg (fun v => [v]) add_unique rows).

(** [Series.max()]: [None] is the [NaT] of an empty column. *)
Definition Series_max (s : list Z) : option Z :=
  match s with
  | [] => None
  | x :: rest => Some (fold_left Z.max rest x)
  end.

(** [left.merge(right, on=key)]: inner join, left order kept. *)
Definition merge {A B : Type} (left : list (Z * A)) (right : list (Z * B))
  : list (Z * (A * B)) :=
  flat_map
    (fun ka =>
       map (fun kb => (fst ka, (snd ka, snd kb)))
           (filter (fun kb => fst kb =? fst ka) right))
    left.

(** [Series.rank(method='first')]: one plus the number of smaller values,
    plus the number of equal values at earlier positions. *)
Definition count_lt (v : Z) (s : list Z) : nat :=
  length (filter (fun w => w <? v) s).

Definition count_eq (v : Z) (s : list Z) : nat :=
  length (filter (fun w => w =? v) s).

Definition rank_at (s : list Z) (i : nat) : Z :=
  let v := nth i s 0 in
  1 + Z.of_nat (count_lt v s) + Z.of_nat (count_eq v (firstn i s)).

Definition rank_first (s : list Z) : list Z :=
  map (rank_at s) (seq 0 (length s)).

(** *** [pd.qcut] *)

Fixpoint insert_sorted (v : Q) (s : list Q) : list Q :=
  match s with
  | [] => [v]
  | w :: s' => if Qle_bool v w then v :: s else w :: insert_sorted v s'
  end.

Fixpoint sort_values (s : list Q) : list Q :=
  match s with
  | [] => []
  | v :: s' => insert_sorted v (sort_values s')
  end.

(** [np.linspace(0, 1, q + 1)] *)
Definition linspace01 (q : nat) : list Q :=
  map (fun k => (inject_Z (Z.of_nat k) / inject_Z (Z.of_nat q))%Q)
      (seq 0 (S q)).

(** The quantile at level [p] of the sorted values [a], linear
    interpolation: the virtual index [p * (n - 1)] is split into the index
    below it and the fraction [gamma]; the index above is clipped to the
    last position. *)
Definition lerp_quantile (a : list Q) (p : Q) : Q :=
  let n := Z.of_nat (length a) in
  let virtual_index := (p * inject_Z (n - 1))%Q in
  let previous := Qfloor virtual_index in
  let gamma := (virtual_index - inject_Z previous)%Q in
  let next := Z.min (previous + 1) (n - 1) in
  let lo := nth (Z.to_nat previous) a 0%Q in
  let hi := nth (Z.to_nat next) a 0%Q in
  (lo + (hi - lo) * gamma)%Q.

(** [Series.quantile(levels)]; [None] stands for the all-[NaN] answer on an
    empty column. *)
Definition Series_quantile (x : list Q) (levels : list Q) : option (list Q) :=
  match x with
  | [] => None
  | _ => Some (map (lerp_quantile (sort_values x)) levels)
  end.

(** [algos.unique]: first occurrences, in order. *)
Fixpoint unique_from (seen l : list Q) : list Q :=
  match l with
  | [] => []
  | v :: l' =>
      if existsb (Qeq_bool v) seen
      then unique_from seen l'
      else v :: unique_from (v :: seen) l'
  end.

Definition unique (l : list Q) : list Q := unique_from [] l.

(** [bins.searchsorted(v, side='left')]: the number of leading edges
    strictly below [v]. *)
Fixpoint searchsorted_left (bins : list Q) (v : Q) : nat :=
  match bins with
  | [] => 0
  | b :: bins' => if Qlt_bool b v then S (searchsorted_left bins' v) else 0
  end.

Definition bin_edges_error : exception :=
  Raise "ValueError" "Bin edges must be unique".

Definition bin_labels_error : exception :=
  Raise "ValueError"
        "Bin labels must be one fewer than the number of bin edges".

Definition nan_to_int_error : exception :=
  Raise "ValueError" "Cannot convert float NaN to integer".

(** The bin index of one value: [searchsorted], then [include_lowest]
    moves a value equal to the first edge into bin 1. *)
Definition bin_id (bins : list Q) (v : Q) : nat :=
  if Qeq_bool v (hd 0%Q bins) then 1%nat else searchsorted_left bins v.

(** The label of one value; [None] is the [NaN] of a value outside the
    edges. *)
Definition cut_label (bins : list Q) (labels : list Z) (v : Q) : option Z :=
  let ids := bin_id bins v in
  if (ids =? length bins)%nat || (ids =? 0)%nat then None
  else nth_error labels (ids - 1).

Definition bins_to_cuts (x bins : list Q) (labels : list Z)
  : result (list (option Z)) :=
  if (length (unique bins) <? length bins)%nat
     && negb (length bins =? 2)%nat
  then Err bin_edges_error
  else if negb (length labels =? length bins - 1)%nat
  then Err bin_labels_error
  else Ok (map (cut_label bins labels) x).

(** [pd.qcut(x, q, labels=labels)], [duplicates='raise'].  On an empty
    column every edge is [NaN], [algos.unique] keeps one of them, and the
    uniqueness test fails. *)
Definition qcut (x : list Q) (q : nat) (labels : list Z)
  : result (list (option Z)) :=
  match Series_quantile x (linspace01 q) with
  | None => Err bin_edges_error
  | Some bins => bins_to_cuts x bins labels
  end.

(** [.astype(int)] on the labelled column: a [NaN] cannot be converted. *)
Fixpoint astype_int (s : list (option Z)) : result (list Z) :=
  match s with
  | [] => Ok []
  | None :: _ => Err nan_to_int_error
  | Some v :: s' => vs <- astype_int s' ;; Ok (v :: vs)
  end.

(** [.astype(str)] on an integer column. *)
Definition astype_str (v : Z) : string :=
  NilZero.string_of_int (Z.to_int v).

End Pandas.

(** Python's [range(start, stop, step)] for a non-zero step. *)
Definition range (start stop step : Z) : list Z :=
  let len :=
    if 0 <? step then (stop - start + step - 1) / step
    else (start - stop - step - 1) / (- step) in
  map (fun i => start + Z.of_nat i * step) (seq 0 (Z.to_nat len)).

(** ** Step 3: data cleaning *)

(** [df.dropna(subset=['CustomerID', 'Description'])] *)
Definition dropna_CustomerID_Description (df : list Row) : list Row :=
  filter (fun r => Pandas.notna (CustomerID r) && Pandas.notna (Description r))
         df.

(** [df[(df['UnitPrice'] > 0) & (df['Quantity'] > 0)]] *)
Definition positive_price_and_quantity (df : list Row) : list Row :=
  filter (fun r => Qlt_bool 0 (UnitPrice r) && (0 <? Quantity r)) df.

Definition step3 (df : list Row) : list Row :=
  positive_price_and_quantity
    (dropna_CustomerID_Description (Pandas.drop_duplicates df)).

(** ** Step 4: [df["TotalPrice"] = df["Quantity"] * df["UnitPrice"]] *)
Definition step4 (df : list Row) : list Txn :=
  map (fun r => mkTxn r (inject_Z (Quantity r) * UnitPrice r)%Q) df.

Definition Cleaner (raw : list Row) : list Txn := step4 (step3 raw).

(** What every row of the cleaned frame satisfies. *)
Definition clean_record (t : Txn) : Prop :=
  0 < Quantity t /\ (0 < UnitPrice t)%Q
  /\ CustomerID t <> None /\ Description t <> None
  /\ TotalPrice t = (inject_Z (Quantity t) * UnitPrice t)%Q.

(** ** Step 10: customer segmentation using RFM *)

(** [pd.Timedelta(days=1)], in nanoseconds. *)
Definition Timedelta_days (d : Z) : Z := d * 86400000000000.

(** [.dt.days] of a time difference. *)
Definition dt_days (delta : Z) : Z := delta / Timedelta_days 1.

Definition latest_date (df : list Txn) : option Z :=
  option_map (fun m => m + Timedelta_days 1)
             (Pandas.Series_max (map (fun t : Txn => InvoiceDate t) df)).

(** The [NaT] reference date arises on the empty frame only, where the
    group-by has no group to subtract it from. *)
Definition recency_df (df : list Txn) : list (Z * Z) :=
  match latest_date df with
  | None => []
  | Some latest =>
      map (fun kd => (fst kd, dt_days (latest - snd kd)))
          (Pandas.groupby_max
             (map (fun t : Txn => (CustomerID t, InvoiceDate t)) df))
  end.

Definition frequency_df (df : list Txn) : list (Z * Z) :=
  Pandas.groupby_nunique (map (fun t : Txn => (CustomerID t, InvoiceNo t)) df).

Definition monetary_df (df : list Txn) : list (Z * Q) :=
  Pandas.groupby_sum (map (fun t : Txn => (CustomerID t, TotalPrice t)) df).

Module Rfm.
Record t : Type := mk {
  CustomerID : Z;
  Recency : Z;
  Frequency : Z;
  Monetary : Q
}.
End Rfm.

Definition rfm (df : list Txn) : list Rfm.t :=
  map (fun r => Rfm.mk (fst r) (fst (fst (snd r))) (snd (fst (snd r)))
                       (snd (snd r)))
      (Pandas.merge (Pandas.merge (recency_df df) (frequency_df df))
                    (monetary_df df)).

Module Scored.
Record t : Type := mk {
  metrics : Rfm.t;
  R_Score : Z;
  F_Score : Z;
  M_Score : Z;
  RFM_Score : string
}.
End Scored.

(** The columns handed to [pd.qcut]; the ranks are [float64] values. *)
Definition recency_values (tbl : list Rfm.t) : list Q :=
  map (fun r => inject_Z (Rfm.Recency r)) tbl.

Definition rank_values (tbl : list Rfm.t) : list Q :=
  map inject_Z (Pandas.rank_first (map Rfm.Frequency tbl)).

Definition monetary_values (tbl : list Rfm.t) : list Q :=
  map Rfm.Monetary tbl.

Definition R_labels : list Z := range 10 0 (-1).
Definition FM_labels : list Z := range 1 11 1.

Definition R_Score_column (tbl : list Rfm.t) : result (list Z) :=
  cats <- Pandas.qcut (recency_values tbl) 10 R_labels ;;
  Pandas.astype_int cats.

Definition F_Score_column (tbl : list Rfm.t) : result (list Z) :=
  cats <- Pandas.qcut (rank_values tbl) 10 FM_labels ;;
  Pandas.astype_int cats.

Definition M_Score_column (tbl : list Rfm.t) : result (list Z) :=
  cats <- Pandas.qcut (monetary_values tbl) 10 FM_labels ;;
  Pandas.astype_int cats.

Definition RFM_Score_of (r f m : Z) : string :=
  (Pandas.astype_str r ++ Pandas.astype_str f ++ Pandas.astype_str m)%string.

Fixpoint assemble (tbl : list Rfm.t) (R F M : list Z) : list Scored.t :=
  match tbl, R, F, M with
  | c :: tbl', r :: R', f :: F', m :: M' =>
      Scored.mk c r f m (RFM_Score_of r f m) :: assemble tbl' R' F' M'
  | _, _, _, _ => []
  end.

(** Lines 158 to 167, on the merged metrics table. *)
Definition score (tbl : list Rfm.t) : result (list Scored.t) :=
  R <- R_Score_column tbl ;;
  F <- F_Score_column tbl ;;
  M <- M_Score_column tbl ;;
  Ok (assemble tbl R F M).

(** The RFM engine: lines 139 to 167. *)
Definition rfm_engine (df : list Txn) : result (list Scored.t) :=
  score (rfm df).


(** ** Reading a keyed table *)

Definition keys {A : Type} (m : list (Z * A)) : list Z := map fst m.

Fixpoint assoc {A : Type} (k : Z) (m : list (Z * A)) : option A :=
  match m with
  | [] => None
  | (k', a) :: m' => if k' =? k then Some a else assoc k m'
  end.

(** The values a column holds on the rows of key [k], in row order. *)
Definition values_of {V : Type} (k : Z) (rows : list (option Z * V)) : list V :=
  map snd (filter (fun kv => option_eqb Z.eqb (fst kv) (Some k)) rows).

Definition increasing (ks : list Z) : Prop := StronglySorted Z.lt ks.

Definition Qsum (l : list Q) : Q := fold_right Qplus 0%Q l.

(** How a group's aggregate takes in one more value. *)
Definition absorb {V A : Type} (init : V -> A) (step : A -> V -> A)
  (acc : option A) (v : V) : option A :=
  Some (match acc with
        | Some a => step a v
        | None => init v
        end).

(** ** The metrics as the specification words them

    Recency is the whole number of days from the customer's most recent
    invoice to the reference date (the latest invoice of the table plus one
    day), frequency the number of distinct invoice identifiers, monetary
    the sum of the line totals. *)

Definition rows_of (c : Z) (df : list Txn) : list Txn :=
  filter (fun t : Txn => option_eqb Z.eqb (CustomerID t) (Some c)) df.

Definition maximum (l : list Z) : Z :=
  match l with
  | [] => 0
  | v :: rest => fold_right Z.max v rest
  end.

Definition spec_reference_date (df : list Txn) : Z :=
  maximum (map (fun t : Txn => InvoiceDate t) df) + Timedelta_days 1.

Definition spec_recency (df : list Txn) (c : Z) : Z :=
  (spec_reference_date df
   - maximum (map (fun t : Txn => InvoiceDate t) (rows_of c df)))
  / Timedelta_days 1.

Definition spec_frequency (df : list Txn) (c : Z) : Z :=
  Z.of_nat (length (nodup string_dec
                      (map (fun t : Txn => InvoiceNo t) (rows_of c df)))).

Definition spec_monetary (df : list Txn) (c : Z) : Q :=
  Qsum (map TotalPrice (rows_of c df)).

(** The customer identifiers present in a frame. *)
Definition customer_ids (df : list Txn) : list (option Z) :=
  map (fun t : Txn => CustomerID t) df.

(** ** Building transaction tables *)

(** Days from 1970-01-01 to a date of the proleptic Gregorian calendar. *)
Definition days_from_civil (y m d : Z) : Z :=
  let y' := if m <=? 2 then y - 1 else y in
  let era := y' / 400 in
  let yoe := y' - era * 400 in
  let mp := if 2 <? m then m - 3 else m + 9 in
  let doy := (153 * mp + 2) / 5 + d - 1 in
  let doe := yoe * 365 + yoe / 4 - yoe / 100 + doy in
  era * 146097 + doe - 719468.

(** [pd.to_datetime] of the date [y-m-d], at midnight. *)
Definition Timestamp (y m d : Z) : Z :=
  Timedelta_days (days_from_civil y m d).

(** One line of an invoice of a customer. *)
Definition sale (invoice : string) (customer : Z) (date : Z)
  (quantity : Z) (price : Q) : Row :=
  mkRow invoice (Some "WHITE METAL LANTERN") quantity date price
        (Some customer) "United Kingdom".

(** Customer 1 buys on 2011-01-01 and on 2011-01-10, the last day of the
    log. *)
Definition two_invoices : list Txn :=
  Cleaner [ sale "536365" 1 (Timestamp 2011 1 1) 6 2.55;
            sale "536365" 1 (Timestamp 2011 1 1) 2 3.39;
            sale "540001" 1 (Timestamp 2011 1 10) 1 7.65 ].

(** ** The decile edges of a column *)

(** The eleven edges [pd.qcut(x, 10)] computes on a non-empty column. *)
Definition edges (a : list Q) : list Q :=
  map (Pandas.lerp_quantile a) (Pandas.linspace01 10).

Definition decile_edges (x : list Q) : list Q :=
  edges (Pandas.sort_values x).

(** The values of a column are pairwise different numbers. *)
Definition distinct_values (x : list Q) : Prop := NoDupA Qeq x.


(** ** The score a bin stands for *)

(** With the labels [1 .. 10] a value of bin [i] is scored [i]; with the
    labels [10 .. 1] it is scored [11 - i]. *)
Definition ascending_score (bins : list Q) (v : Q) : Z :=
  Z.of_nat (Pandas.bin_id bins v).

Definition descending_score (bins : list Q) (v : Q) : Z :=
  11 - Z.of_nat (Pandas.bin_id bins v).


(** ** Sample logs *)



(** A frame that skipped Step 3: the line of customer 10 is a return of
    five units, so that the customer's monetary value is negative. *)
Definition with_a_return : list Txn :=
  step4 [ sale "536365" 1 (Timestamp 2011 1 10) 1 100;
          sale "536366" 2 (Timestamp 2011 1 9) 1 90;
          sale "536367" 3 (Timestamp 2011 1 8) 1 80;
          sale "536368" 4 (Timestamp 2011 1 7) 1 70;
          sale "536369" 5 (Timestamp 2011 1 6) 1 60;
          sale "536370" 6 (Timestamp 2011 1 5) 1 50;
          sale "536371" 7 (Timestamp 2011 1 4) 1 40;
          sale "536372" 8 (Timestamp 2011 1 3) 1 30;
          sale "536373" 9 (Timestamp 2011 1 2) 1 20;
          sale "C536374" 10 (Timestamp 2011 1 1) (-5) 10 ].

(** Ten customers; customers 5 and 6 bought on the same day, so that nine
    different recencies occur. *)
Definition shared_day : list Txn :=
  Cleaner [ sale "536365" 1 (Timestamp 2011 1 9) 1 100;
            sale "536366" 2 (Timestamp 2011 1 8) 1 90;
            sale "536367" 3 (Timestamp 2011 1 7) 1 80;
            sale "536368" 4 (Timestamp 2011 1 6) 1 70;
            sale "536369" 5 (Timestamp 2011 1 5) 1 60;
            sale "536370" 6 (Timestamp 2011 1 5) 1 50;
            sale "536371" 7 (Timestamp 2011 1 4) 1 40;
            sale "536372" 8 (Timestamp 2011 1 3) 1 30;
            sale "536373" 9 (Timestamp 2011 1 2) 1 20;
            sale "536374" 10 (Timestamp 2011 1 1) 1 10 ].

(** Ten customers who all bought on the same day. *)
Definition same_day : list Txn :=
  Cleaner [ sale "536365" 1 (Timestamp 2011 1 10) 1 100;
            sale "536366" 2 (Timestamp 2011 1 10) 1 90;
            sale "536367" 3 (Timestamp 2011 1 10) 1 80;
            sale "536368" 4 (Timestamp 2011 1 10) 1 70;
            sale "536369" 5 (Timestamp 2011 1 10) 1 60;
            sale "536370" 6 (Timestamp 2011 1 10) 1 50;
            sale "536371" 7 (Timestamp 2011 1 10) 1 40;
            sale "536372" 8 (Timestamp 2011 1 10) 1 30;
            sale "536373" 9 (Timestamp 2011 1 10) 1 20;
            sale "536374" 10 (Timestamp 2011 1 10) 1 10 ].

(** Ten customers, on ten different days, who all spent the same. *)
Definition same_spend : list Txn :=
  Cleaner [ sale "536365" 1 (Timestamp 2011 1 10) 2 25;
            sale "536366" 2 (Timestamp 2011 1 9) 2 25;
            sale "536367" 3 (Timestamp 2011 1 8) 2 25;
            sale "536368" 4 (Timestamp 2011 1 7) 2 25;
            sale "536369" 5 (Timestamp 2011 1 6) 2 25;
            sale "536370" 6 (Timestamp 2011 1 5) 2 25;
            sale "536371" 7 (Timestamp 2011 1 4) 2 25;
            sale "536372" 8 (Timestamp 2011 1 3) 2 25;
            sale "536373" 9 (Timestamp 2011 1 2) 2 25;
            sale "536374" 10 (Timestamp 2011 1 1) 2 25 ].

(** The distinct customers of a frame. *)
Definition distinct_customers (df : list Txn) : list Z :=
  nodup Z.eq_dec
    (flat_map (fun t : Txn => match CustomerID t with
                              | Some c => [c]
                              | None => []
                              end) df).



(** ** Steps 4 to 8: the date columns and the revenue reports *)

(** The calendar date of a count of days since 1970-01-01, as
    [(year, month, day)]. *)
Definition civil_from_days (z : Z) : Z * Z * Z :=
  let z' := z + 719468 in
  let era := z' / 146097 in
  let doe := z' - era * 146097 in
  let yoe := (doe - doe / 1460 + doe / 36524 - doe / 146096) / 365 in
  let doy := doe - (365 * yoe + yoe / 4 - yoe / 100) in
  let mp := (5 * doy + 2) / 153 in
  let d := doy - (153 * mp + 2) / 5 + 1 in
  let m := if mp <? 10 then mp + 3 else mp - 9 in
  let y := yoe + era * 400 in
  (if m <=? 2 then y + 1 else y, m, d).

(** [df['InvoiceDate'].dt.year] and [.dt.month], lines 51 and 52. *)
Definition Year (t : Txn) : Z :=
  fst (fst (civil_from_days (InvoiceDate t / Timedelta_days 1))).

Definition Month (t : Txn) : Z :=
  snd (fst (civil_from_days (InvoiceDate t / Timedelta_days 1))).

(** [groupby(key)[column].sum()] for keys of any type: one row for each
    key present, the keys in ascending order, the values of a key added up
    in row order; rows whose key is [NaN] are left out. *)
Section GroupByKey.
Context {K : Type}.
Variable eqb : K -> K -> bool.
Variable leb : K -> K -> bool.

Fixpoint insert_key (k : K) (ks : list K) : list K :=
  match ks with
  | [] => [k]
  | h :: ks' => if leb k h then k :: ks else h :: insert_key k ks'
  end.

Fixpoint sort_keys (ks : list K) : list K :=
  match ks with
  | [] => []
  | k :: ks' => insert_key k (sort_keys ks')
  end.

Fixpoint unique_keys_from (seen ks : list K) : list K :=
  match ks with
  | [] => []
  | k :: ks' =>
      if existsb (eqb k) seen
      then unique_keys_from seen ks'
      else k :: unique_keys_from (k :: seen) ks'
  end.

Fixpoint present_keys (rows : list (option K * Q)) : list K :=
  match rows with
  | [] => []
  | (Some k, _) :: rows' => k :: present_keys rows'
  | (None, _) :: rows' => present_keys rows'
  end.

Definition group_keys (rows : list (option K * Q)) : list K :=
  sort_keys (unique_keys_from [] (present_keys rows)).

Definition group_values (k : K) (rows : list (option K * Q)) : list Q :=
  map snd (filter (fun kv => option_eqb eqb (fst kv) (Some k)) rows).

Definition groupby_sum_by (rows : list (option K * Q)) : list (K * Q) :=
  map (fun k => (k, fold_left Qplus (group_values k rows) 0%Q))
      (group_keys rows).
End GroupByKey.

(** What [sort_values(ascending=False)] promises of the order it returns:
    the same rows, in non-increasing order of value.  The order among rows
    of equal value is not fixed by the default sort, and no property below
    depends on it. *)
Definition sorts_descending {K : Type}
  (sort_values : list (K * Q) -> list (K * Q)) : Prop :=
  forall l, Permutation (sort_values l) l
            /\ StronglySorted (fun a b => (snd b <= snd a)%Q) (sort_values l).

(** One such sort: insertion from the right, before the first smaller or
    equal value. *)
Fixpoint insert_descending {K : Type} (x : K * Q) (l : list (K * Q))
  : list (K * Q) :=
  match l with
  | [] => [x]
  | y :: l' =>
      if Qle_bool (snd y) (snd x) then x :: l
      else y :: insert_descending x l'
  end.

Fixpoint sort_values_descending {K : Type} (l : list (K * Q))
  : list (K * Q) :=
  match l with
  | [] => []
  | x :: l' => insert_descending x (sort_values_descending l')
  end.

(** Step 5, lines 58 to 63: the ten products of highest revenue. *)
Definition product_revenue (df : list Txn) : list (string * Q) :=
  groupby_sum_by String.eqb String.leb
    (map (fun t : Txn => (Description t, TotalPrice t)) df).

Definition top_products
  (sort_values : list (string * Q) -> list (string * Q)) (df : list Txn)
  : list (string * Q) :=
  firstn 10 (sort_values (product_revenue df)).

(** Step 6, line 71: revenue by year and month. *)
Definition month_eqb (a b : Z * Z) : bool :=
  (fst a =? fst b) && (snd a =? snd b).

Definition month_leb (a b : Z * Z) : bool :=
  (fst a <? fst b) || ((fst a =? fst b) && (snd a <=? snd b)).

Definition monthly_revenue (df : list Txn) : list ((Z * Z) * Q) :=
  groupby_sum_by month_eqb month_leb
    (map (fun t : Txn => (Some (Year t, Month t), TotalPrice t)) df).

(** Step 7, lines 91 to 96: revenue by country, highest first. *)
Definition country_revenue
  (sort_values : list (string * Q) -> list (string * Q)) (df : list Txn)
  : list (string * Q) :=
  sort_values
    (groupby_sum_by String.eqb String.leb
       (map (fun t : Txn => (Some (Country t), TotalPrice t)) df)).

(** Line 192: [country_revenue.head(5)]. *)
Definition top5_countries
  (sort_values : list (string * Q) -> list (string * Q)) (df : list Txn)
  : list (string * Q) :=
  firstn 5 (country_revenue sort_values df).

(** Step 8, lines 104 and 105: the mean line total of each customer, the
    sum of the customer's line totals divided by their number. *)
Definition avg_revenue (df : list Txn) : list (Z * Q) :=
  map (fun kv => (fst kv, (fst (snd kv) / inject_Z (snd (snd kv)))%Q))
      (Pandas.groupby_agg (fun v : Q => (v, 1))
         (fun (acc : Q * Z) (v : Q) => ((fst acc + v)%Q, snd acc + 1))
         (map (fun t : Txn => (CustomerID t, TotalPrice t)) df)).

(** A log of two countries and three products over two months. *)
Definition two_countries : list Txn :=
  Cleaner [ mkRow "536365" (Some "WHITE METAL LANTERN") 6 (Timestamp 2010 12 1)
                  3.39 (Some 17850) "United Kingdom";
            mkRow "536365" (Some "RED WOOLLY HOTTIE") 6 (Timestamp 2010 12 1)
                  3.39 (Some 17850) "United Kingdom";
            mkRow "536370" (Some "MINI PAINT SET VINTAGE") 36
                  (Timestamp 2010 12 1) 0.65 (Some 12583) "France";
            mkRow "540001" (Some "WHITE METAL LANTERN") 2 (Timestamp 2011 1 7)
                  3.39 (Some 12583) "France";
            mkRow "540002" (Some "RED WOOLLY HOTTIE") 10 (Timestamp 2011 1 9)
                  3.39 (Some 17850) "United Kingdom" ].

(** ** The float64 columns in binary64

    The definitions above read the [float64] columns as exact rationals.
    The module below evaluates the same statements in binary64, with the
    kernel's IEEE 754 floats: the products of line 45, the sums of line
    151 and the bin edges of lines 158 to 160 as [np.linspace],
    [np.percentile] and [searchsorted] compute them.  It is used where
    rounding decides the outcome. *)
Module Binary64.
Import PrimFloat.

(** [float(z)], for an integer below [2^63] in absolute value. *)
Definition of_Z (z : Z) : float :=
  match z with
  | Z0 => 0%float
  | Zpos _ => of_uint63 (Uint63.of_Z z)
  | Zneg p => (- of_uint63 (Uint63.of_Z (Zpos p)))%float
  end.

(** The binary64 value nearest to a decimal read from the file. *)
Definition of_Q (q : Q) : float :=
  (of_Z (Qnum q) / of_Z (Zpos (Qden q)))%float.

(** Line 45: [df["Quantity"] * df["UnitPrice"]]. *)
Definition TotalPrice (t : Txn) : float :=
  (of_Z (Quantity t) * of_Q (UnitPrice t))%float.


(** Line 151: [df.groupby('CustomerID')['TotalPrice'].sum()]. *)
Definition monetary_df (df : list Txn) : list (Z * float) :=
  Pandas.groupby_agg (fun v : float => v) add
    (map (fun t : Txn => (CustomerID t, TotalPrice t)) df).

Fixpoint insert_sorted (v : float) (s : list float) : list float :=
  match s with
  | [] => [v]
  | w :: s' => if (v <=? w)%float then v :: s else w :: insert_sorted v s'
  end.

Fixpoint sort_values (s : list float) : list float :=
  match s with
  | [] => []
  | v :: s' => insert_sorted v (sort_values s')
  end.

(** [np.linspace(0, 1, q + 1)]: the step [1 / q] times the index, the
    last level set to the stop. *)
Definition linspace01 (q : nat) : list float :=
  map (fun k => if (k =? q)%nat then 1%float
                else (of_Z (Z.of_nat k) * (1 / of_Z (Z.of_nat q)) + 0)%float)
      (seq 0 (S q)).

(** [np.floor] of a virtual index below [n]: the greatest [i < n] that
    does not exceed it. *)
Fixpoint floor_below (v : float) (n : nat) : nat :=
  match n with
  | O => O
  | S n' => if (of_Z (Z.of_nat n') <=? v)%float then n' else floor_below v n'
  end.

(** numpy's [_lerp]. *)
Definition lerp (a b t : float) : float :=
  let diff_b_a := (b - a)%float in
  if (0.5 <=? t)%float then (b - diff_b_a * (1 - t))%float
  else (a + diff_b_a * t)%float.

(** [np.percentile(a, q, method='linear')] on the sorted values [a]: the
    level is [q / 100], the virtual index [(n - 1) * level]; at or above
    the last position the answer is the last value. *)
Definition percentile (a : list float) (q : float) : float :=
  let last_index := of_Z (Z.of_nat (length a - 1)) in
  let virtual_index := (last_index * (q / 100))%float in
  if (last_index <=? virtual_index)%float then last a nan
  else
    let previous := floor_below virtual_index (length a) in
    let gamma := (virtual_index - of_Z (Z.of_nat previous))%float in
    lerp (nth previous a nan) (nth (S previous) a nan) gamma.

(** [Series.quantile(levels)], which hands [levels * 100] to
    [np.percentile]. *)
Definition Series_quantile (x : list float) (levels : list float)
  : option (list float) :=
  match x with
  | [] => None
  | _ => Some (map (fun level => percentile (sort_values x)
                                            (level * 100)%float) levels)
  end.

Fixpoint unique_from (seen l : list float) : list float :=
  match l with
  | [] => []
  | v :: l' =>
      if existsb (fun w => (v =? w)%float) seen
      then unique_from seen l'
      else v :: unique_from (v :: seen) l'
  end.

Definition unique (l : list float) : list float := unique_from [] l.

Fixpoint searchsorted_left (bins : list float) (v : float) : nat :=
  match bins with
  | [] => 0
  | b :: bins' => if (b <? v)%float then S (searchsorted_left bins' v) else 0
  end.

Definition bin_id (bins : list float) (v : float) : nat :=
  if (v =? hd nan bins)%float then 1%nat else searchsorted_left bins v.

Definition cut_label (bins : list float) (labels : list Z) (v : float)
  : option Z :=
  let ids := bin_id bins v in
  if (ids =? length bins)%nat || (ids =? 0)%nat then None
  else nth_error labels (ids - 1).

Definition bins_to_cuts (x bins : list float) (labels : list Z)
  : result (list (option Z)) :=
  if (length (unique bins) <? length bins)%nat
     && negb (length bins =? 2)%nat
  then Err Pandas.bin_edges_error
  else if negb (length labels =? length bins - 1)%nat
  then Err Pandas.bin_labels_error
  else Ok (map (cut_label bins labels) x).

Definition qcut (x : list float) (q : nat) (labels : list Z)
  : result (list (option Z)) :=
  match Series_quantile x (linspace01 q) with
  | None => Err Pandas.bin_edges_error
  | Some bins => bins_to_cuts x bins labels
  end.

(** Lines 158 to 160.  [Recency] and the ranks are whole numbers, held as
    floats; the [Monetary] column of the merged table is the column of
    sums of line 151, customer by customer. *)
Definition R_Score_column (df : list Txn) : result (list Z) :=
  cats <- qcut (map (fun r => of_Z (Rfm.Recency r)) (rfm df)) 10 R_labels ;;
  Pandas.astype_int cats.

Definition F_Score_column (df : list Txn) : result (list Z) :=
  cats <- qcut (map of_Z (Pandas.rank_first (map Rfm.Frequency (rfm df))))
               10 FM_labels ;;
  Pandas.astype_int cats.

Definition M_Score_column (df : list Txn) : result (list Z) :=
  cats <- qcut (map snd (monetary_df df)) 10 FM_labels ;;
  Pandas.astype_int cats.

(** The three score columns of the engine, [R_Score], [F_Score] and
    [M_Score]. *)
Definition scores (df : list Txn)
  : result (list Z * list Z * list Z) :=
  R <- R_Score_column df ;;
  F <- F_Score_column df ;;
  M <- M_Score_column df ;;
  Ok (R, F, M).
End Binary64.


(** * Properties *)

(** ** The Cleaner (Steps 3 and 4) *)




Lemma InA_duplicate_existsb (r : Row) (l : list Row) :
  InA duplicate_rows r l -> existsb (row_eqb r) l = true.
Proof.
  induction 1 as [s l H | s l _ IH]; simpl.
  - unfold duplicate_rows in H. now rewrite H.
  - rewrite IH. apply orb_true_r.
Qed.






Lemma Qlt_bool_iff (a b : Q) : Qlt_bool a b = true <-> (a < b)%Q.
Proof.
  unfold Qlt_bool. rewrite negb_true_iff.
  split; intros H.
  - apply Qnot_le_lt. intros Hle. apply Qle_bool_iff in Hle. congruence.
  - destruct (Qle_bool b a) eqn:E; auto.
    apply Qle_bool_iff in E. exfalso. eapply Qlt_not_le; eauto.
Qed.


Lemma Cleaner_clean_records (raw : list Row) :
  Forall clean_record (Cleaner raw).
Proof.
  unfold Cleaner, step4. apply Forall_forall. intros t Ht.
  apply in_map_iff in Ht. destruct Ht as (r & <- & Hr).
  unfold step3, positive_price_and_quantity in Hr.
  apply filter_In in Hr. destruct Hr as [Hr Hpos].
  unfold dropna_CustomerID_Description in Hr.
  apply filter_In in Hr. destruct Hr as [_ Hna].
  apply andb_true_iff in Hpos. destruct Hpos as [Hp Hq].
  apply andb_true_iff in Hna. destruct Hna as [Hc Hd].
  apply Qlt_bool_iff in Hp. apply Z.ltb_lt in Hq.
  unfold clean_record; simpl. repeat split; auto.
  - destruct (CustomerID r); [discriminate | discriminate Hc].
  - destruct (Description r); [discriminate | discriminate Hd].
Qed.


(** ** Group-by aggregation *)

Lemma increasing_NoDup (ks : list Z) : increasing ks -> NoDup ks.
Proof.
  induction 1 as [|k ks _ IH Hk]; constructor; auto.
  intros Hin. rewrite Forall_forall in Hk. specialize (Hk k Hin). lia.
Qed.

Lemma increasing_ext (ks ks' : list Z) :
  increasing ks -> increasing ks' ->
  (forall k, In k ks <-> In k ks') -> ks = ks'.
Proof.
  intros H. revert ks'.
  induction H as [|k ks Hs IH Hk]; intros ks' H' Hiff.
  - destruct ks' as [|k' ks']; auto.
    destruct (proj2 (Hiff k')); simpl; auto.
  - destruct H' as [|k' ks' Hs' Hk'].
    + destruct (proj1 (Hiff k)); simpl; auto.
    + rewrite Forall_forall in Hk, Hk'.
      assert (k = k') as <-.
      { destruct (proj1 (Hiff k)) as [E | Hin]; simpl; auto.
        destruct (proj2 (Hiff k')) as [E | Hin']; simpl; auto.
        specialize (Hk _ Hin'). specialize (Hk' _ Hin). lia. }
      f_equal. apply IH; auto.
      intros j. split; intros Hj.
      * destruct (proj1 (Hiff j)) as [E | Hin]; simpl; auto.
        specialize (Hk _ Hj). lia.
      * destruct (proj2 (Hiff j)) as [E | Hin]; simpl; auto.
        specialize (Hk' _ Hj). lia.
Qed.

Lemma assoc_In {A : Type} (k : Z) (a : A) (m : list (Z * A)) :
  NoDup (keys m) -> In (k, a) m -> assoc k m = Some a.
Proof.
  induction m as [|[k' a'] m IH]; simpl; intros Hnd Hin.
  - contradiction.
  - inversion_clear Hnd as [|? ? Hk' Hnd'].
    destruct Hin as [E | Hin].
    + inversion E; subst. now rewrite Z.eqb_refl.
    + destruct (Z.eqb_spec k' k) as [-> | _]; auto.
      exfalso. apply Hk'. unfold keys. apply in_map_iff.
      exists (k, a). auto.
Qed.

Lemma assoc_Some_In {A : Type} (k : Z) (a : A) (m : list (Z * A)) :
  assoc k m = Some a -> In (k, a) m.
Proof.
  induction m as [|[k' a'] m IH]; simpl; intros H.
  - discriminate.
  - destruct (Z.eqb_spec k' k) as [-> | _].
    + inversion H. now left.
    + right. auto.
Qed.

Lemma assoc_None_keys {A : Type} (k : Z) (m : list (Z * A)) :
  assoc k m = None <-> ~ In k (keys m).
Proof.
  induction m as [|[k' a'] m IH]; simpl.
  - tauto.
  - destruct (Z.eqb_spec k' k) as [-> | Hne].
    + split; [discriminate | intros H; exfalso; auto].
    + rewrite IH. tauto.
Qed.

Section GroupByFacts.
Context {V A : Type}.
Variable init : V -> A.
Variable step : A -> V -> A.

Lemma upsert_keys_In (k : Z) (v : V) (m : list (Z * A)) (j : Z) :
  In j (keys (Pandas.upsert init step k v m)) <-> j = k \/ In j (keys m).
Proof.
  induction m as [|[k' a] m IH]; simpl.
  - intuition.
  - destruct (k <? k'); simpl; [intuition|].
    destruct (Z.eqb_spec k k') as [-> | Hne]; simpl.
    + intuition.
    + rewrite IH. intuition.
Qed.

Lemma upsert_increasing (k : Z) (v : V) (m : list (Z * A)) :
  increasing (keys m) -> increasing (keys (Pandas.upsert init step k v m)).
Proof.
  unfold increasing.
  induction m as [|[k' a] m IH]; simpl; intros Hs.
  - repeat constructor.
  - inversion_clear Hs as [|? ? Hs' Hk'].
    destruct (Z.ltb_spec k k') as [Hlt | Hge]; simpl.
    + constructor; [constructor; auto|].
      constructor; auto.
      eapply Forall_impl; [|exact Hk']. simpl. intros; lia.
    + destruct (Z.eqb_spec k k') as [-> | Hne]; simpl.
      * constructor; auto.
      * constructor; auto.
        apply Forall_forall. intros j Hj.
        apply upsert_keys_In in Hj. destruct Hj as [-> | Hj]; [lia|].
        rewrite Forall_forall in Hk'. auto.
Qed.

Lemma upsert_assoc (k : Z) (v : V) (m : list (Z * A)) (j : Z) :
  increasing (keys m) ->
  assoc j (Pandas.upsert init step k v m)
  = if j =? k then absorb init step (assoc k m) v else assoc j m.
Proof.
  unfold increasing.
  induction m as [|[k' a] m IH]; simpl; intros Hs.
  - rewrite (Z.eqb_sym k j). destruct (j =? k); reflexivity.
  - inversion_clear Hs as [|? ? Hs' Hk'].
    destruct (Z.ltb_spec k k') as [Hlt | Hge]; simpl.
    + rewrite (Z.eqb_sym k j).
      destruct (Z.eqb_spec j k) as [E | Hne].
      * destruct (Z.eqb_spec k' k); [lia|].
        replace (assoc k m) with (@None A); auto.
        symmetry. apply assoc_None_keys. intros Hin.
        rewrite Forall_forall in Hk'. specialize (Hk' _ Hin). lia.
      * reflexivity.
    + destruct (Z.eqb_spec k k') as [-> | Hne]; simpl.
      * rewrite Z.eqb_refl.
        destruct (Z.eqb_spec k' j) as [E | Hne'].
        -- subst j. now rewrite Z.eqb_refl.
        -- destruct (Z.eqb_spec j k'); [congruence | reflexivity].
      * destruct (Z.eqb_spec k' k); [congruence|].
        rewrite IH by auto.
        destruct (Z.eqb_spec k' j) as [E | Hne'].
        -- destruct (Z.eqb_spec j k); [congruence | reflexivity].
        -- reflexivity.
Qed.

Lemma groupby_from_increasing (rows : list (option Z * V)) (m : list (Z * A)) :
  increasing (keys m) ->
  increasing (keys (Pandas.groupby_from init step m rows)).
Proof.
  revert m. induction rows as [|[[k|] v] rows IH]; simpl; intros m Hm; auto.
  apply IH. now apply upsert_increasing.
Qed.

Lemma groupby_from_keys_In (rows : list (option Z * V)) (m : list (Z * A))
  (j : Z) :
  In j (keys (Pandas.groupby_from init step m rows))
  <-> In j (keys m) \/ In (Some j) (map fst rows).
Proof.
  revert m. induction rows as [|[[k|] v] rows IH]; simpl; intros m.
  - tauto.
  - rewrite IH, upsert_keys_In.
    split.
    + intros [[E|H]|H]; auto. subst; auto.
    + intros [H|[E|H]]; auto. inversion E; auto.
  - rewrite IH. split.
    + intros [H|H]; auto.
    + intros [H|[E|H]]; auto. discriminate.
Qed.

Lemma groupby_from_assoc (rows : list (option Z * V)) (m : list (Z * A))
  (j : Z) :
  increasing (keys m) ->
  assoc j (Pandas.groupby_from init step m rows)
  = fold_left (absorb init step) (values_of j rows) (assoc j m).
Proof.
  revert m. induction rows as [|[[k|] v] rows IH]; simpl; intros m Hm; auto.
  - rewrite IH by now apply upsert_increasing.
    rewrite upsert_assoc by auto.
    unfold values_of; simpl.
    destruct (Z.eqb_spec k j) as [E | Hne].
    + subst j. now rewrite Z.eqb_refl.
    + destruct (Z.eqb_spec j k); [congruence | reflexivity].
Qed.

Lemma groupby_agg_increasing (rows : list (option Z * V)) :
  increasing (keys (Pandas.groupby_agg init step rows)).
Proof.
  apply groupby_from_increasing. constructor.
Qed.

Lemma groupby_agg_keys_In (rows : list (option Z * V)) (j : Z) :
  In j (keys (Pandas.groupby_agg init step rows))
  <-> In (Some j) (map fst rows).
Proof.
  unfold Pandas.groupby_agg. rewrite groupby_from_keys_In. simpl. tauto.
Qed.

Lemma groupby_agg_assoc (rows : list (option Z * V)) (j : Z) :
  assoc j (Pandas.groupby_agg init step rows)
  = fold_left (absorb init step) (values_of j rows) None.
Proof.
  unfold Pandas.groupby_agg. rewrite groupby_from_assoc; auto. constructor.
Qed.
End GroupByFacts.

(** ** Merging the three metric tables *)

Lemma filter_key_absent {B : Type} (k : Z) (r : list (Z * B)) :
  ~ In k (keys r) -> filter (fun kb => fst kb =? k) r = [].
Proof.
  induction r as [|[k' b] r IH]; simpl; intros Hk; auto.
  destruct (Z.eqb_spec k' k) as [E | _].
  - exfalso. auto.
  - apply IH. tauto.
Qed.

Lemma flat_map_ext_In {A B : Type} (f g : A -> list B) (l : list A) :
  (forall a, In a l -> f a = g a) -> flat_map f l = flat_map g l.
Proof.
  induction l as [|a l IH]; simpl; intros H; auto.
  rewrite (H a) by auto. f_equal. auto.
Qed.

Lemma merge_In {A B : Type} (l : list (Z * A)) (r : list (Z * B)) k a b :
  In (k, (a, b)) (Pandas.merge l r) <-> In (k, a) l /\ In (k, b) r.
Proof.
  unfold Pandas.merge. rewrite in_flat_map. split.
  - intros ([k1 a1] & Hl & Hin). apply in_map_iff in Hin.
    destruct Hin as ([k2 b2] & E & Hr). apply filter_In in Hr.
    simpl in *. destruct Hr as [Hr Hk]. apply Z.eqb_eq in Hk.
    inversion E; subst. auto.
  - intros [Hl Hr]. exists (k, a). split; auto.
    apply in_map_iff. exists (k, b). split; auto.
    apply filter_In. simpl. split; auto. apply Z.eqb_refl.
Qed.

Lemma merge_cons_left {A B : Type} k a (l : list (Z * A))
  (r : list (Z * B)) :
  Pandas.merge ((k, a) :: l) r
  = map (fun kb => (k, (a, snd kb))) (filter (fun kb => fst kb =? k) r)
    ++ Pandas.merge l r.
Proof.
  reflexivity.
Qed.

Lemma merge_cons_right_fresh {A B : Type} k b (l : list (Z * A))
  (r : list (Z * B)) :
  ~ In k (keys l) -> Pandas.merge l ((k, b) :: r) = Pandas.merge l r.
Proof.
  intros Hk. unfold Pandas.merge. apply flat_map_ext_In.
  intros [k2 a2] Hin. simpl.
  destruct (Z.eqb_spec k k2) as [E | _]; auto.
  exfalso. apply Hk. subst. unfold keys. apply in_map_iff.
  exists (k2, a2). auto.
Qed.

Lemma merge_aligned {A B : Type} (l : list (Z * A)) (r : list (Z * B)) :
  keys l = keys r -> NoDup (keys l) ->
  keys (Pandas.merge l r) = keys l
  /\ map (fun x => fst (snd x)) (Pandas.merge l r) = map snd l
  /\ map (fun x => snd (snd x)) (Pandas.merge l r) = map snd r.
Proof.
  revert r. induction l as [|[k a] l IH]; intros [|[k' b] r] Hk Hnd;
    try discriminate.
  - auto.
  - inversion Hk as [[E Hk']]. subst k'.
    inversion_clear Hnd as [|? ? Hnotin Hnd'].
    rewrite merge_cons_left, merge_cons_right_fresh by exact Hnotin.
    cbn [filter fst]. rewrite Z.eqb_refl.
    rewrite filter_key_absent by (rewrite <- Hk'; exact Hnotin).
    destruct (IH r Hk' Hnd') as (H1 & H2 & H3).
    unfold keys in *. cbn [map app fst snd]. rewrite H1, H2, H3. auto.
Qed.

(** ** The metrics table [rfm] *)

Lemma keys_groupby_max (df : list Txn) (c : Z) :
  In c (keys (Pandas.groupby_max
                (map (fun t : Txn => (CustomerID t, InvoiceDate t)) df)))
  <-> In (Some c) (customer_ids df).
Proof.
  unfold Pandas.groupby_max. rewrite groupby_agg_keys_In, map_map. reflexivity.
Qed.

Lemma latest_date_None (df : list Txn) : latest_date df = None -> df = [].
Proof.
  unfold latest_date. destruct df; simpl; [auto | discriminate].
Qed.

Lemma keys_recency_df (df : list Txn) :
  keys (recency_df df)
  = keys (Pandas.groupby_max
            (map (fun t : Txn => (CustomerID t, InvoiceDate t)) df)).
Proof.
  unfold recency_df. destruct (latest_date df) eqn:E.
  - unfold keys. rewrite map_map. reflexivity.
  - apply latest_date_None in E. subst. reflexivity.
Qed.

Lemma keys_frequency_df (df : list Txn) :
  keys (frequency_df df)
  = keys (Pandas.groupby_agg (fun v => [v]) Pandas.add_unique
            (map (fun t : Txn => (CustomerID t, InvoiceNo t)) df)).
Proof.
  unfold frequency_df, Pandas.groupby_nunique, keys. rewrite map_map.
  reflexivity.
Qed.

Lemma recency_df_increasing (df : list Txn) : increasing (keys (recency_df df)).
Proof.
  rewrite keys_recency_df. apply groupby_agg_increasing.
Qed.

Lemma frequency_df_increasing (df : list Txn) :
  increasing (keys (frequency_df df)).
Proof.
  rewrite keys_frequency_df. apply groupby_agg_increasing.
Qed.

Lemma monetary_df_increasing (df : list Txn) :
  increasing (keys (monetary_df df)).
Proof.
  apply groupby_agg_increasing.
Qed.

Lemma keys_recency_df_In (df : list Txn) (c : Z) :
  In c (keys (recency_df df)) <-> In (Some c) (customer_ids df).
Proof.
  rewrite keys_recency_df. apply keys_groupby_max.
Qed.

Lemma keys_frequency_df_In (df : list Txn) (c : Z) :
  In c (keys (frequency_df df)) <-> In (Some c) (customer_ids df).
Proof.
  rewrite keys_frequency_df, groupby_agg_keys_In, map_map. reflexivity.
Qed.

Lemma keys_monetary_df_In (df : list Txn) (c : Z) :
  In c (keys (monetary_df df)) <-> In (Some c) (customer_ids df).
Proof.
  unfold monetary_df, Pandas.groupby_sum.
  rewrite groupby_agg_keys_In, map_map. reflexivity.
Qed.

Lemma keys_frequency_recency (df : list Txn) :
  keys (recency_df df) = keys (frequency_df df).
Proof.
  apply increasing_ext.
  - apply recency_df_increasing.
  - apply frequency_df_increasing.
  - intros k. now rewrite keys_recency_df_In, keys_frequency_df_In.
Qed.

Lemma keys_monetary_recency (df : list Txn) :
  keys (recency_df df) = keys (monetary_df df).
Proof.
  apply increasing_ext.
  - apply recency_df_increasing.
  - apply monetary_df_increasing.
  - intros k. now rewrite keys_recency_df_In, keys_monetary_df_In.
Qed.

(** The columns of [rfm] are the columns of the three tables, row by row. *)
Lemma rfm_columns (df : list Txn) :
  map Rfm.CustomerID (rfm df) = keys (recency_df df)
  /\ map Rfm.Recency (rfm df) = map snd (recency_df df)
  /\ map Rfm.Frequency (rfm df) = map snd (frequency_df df)
  /\ map Rfm.Monetary (rfm df) = map snd (monetary_df df).
Proof.
  pose proof (increasing_NoDup _ (recency_df_increasing df)) as Hnd.
  destruct (merge_aligned (recency_df df) (frequency_df df)
              (keys_frequency_recency df) Hnd) as (K1 & A1 & B1).
  assert (K2 : keys (Pandas.merge (recency_df df) (frequency_df df))
               = keys (monetary_df df))
    by (rewrite K1; apply keys_monetary_recency).
  assert (Hnd2 : NoDup (keys (Pandas.merge (recency_df df) (frequency_df df))))
    by (rewrite K1; exact Hnd).
  destruct (merge_aligned _ (monetary_df df) K2 Hnd2) as (K3 & A3 & B3).
  unfold rfm. rewrite !map_map.
  repeat split.
  - rewrite <- K1, <- K3. apply map_ext. reflexivity.
  - rewrite <- A1, <- (map_map snd fst), <- A3, map_map.
    apply map_ext. reflexivity.
  - rewrite <- B1, <- (map_map snd snd), <- A3, map_map.
    apply map_ext. reflexivity.
  - rewrite <- B3. apply map_ext. reflexivity.
Qed.

Lemma rfm_customers_increasing (df : list Txn) :
  increasing (map Rfm.CustomerID (rfm df)).
Proof.
  destruct (rfm_columns df) as (-> & _). apply recency_df_increasing.
Qed.

Lemma rfm_customers_In (df : list Txn) (c : Z) :
  In c (map Rfm.CustomerID (rfm df)) <-> In (Some c) (customer_ids df).
Proof.
  destruct (rfm_columns df) as (-> & _). apply keys_recency_df_In.
Qed.

Lemma rfm_row_assoc (df : list Txn) (x : Rfm.t) :
  In x (rfm df) ->
  assoc (Rfm.CustomerID x) (recency_df df) = Some (Rfm.Recency x)
  /\ assoc (Rfm.CustomerID x) (frequency_df df) = Some (Rfm.Frequency x)
  /\ assoc (Rfm.CustomerID x) (monetary_df df) = Some (Rfm.Monetary x).
Proof.
  unfold rfm. intros Hin. apply in_map_iff in Hin.
  destruct Hin as ([k [[r f] m]] & <- & Hin). simpl.
  apply merge_In in Hin. destruct Hin as [Hrf Hm].
  apply merge_In in Hrf. destruct Hrf as [Hr Hf].
  repeat split; apply assoc_In; auto; apply increasing_NoDup.
  - apply recency_df_increasing.
  - apply frequency_df_increasing.
  - apply monetary_df_increasing.
Qed.

(** ** The aggregates against the specification's wording *)

Lemma values_of_column {V : Type} (X : Txn -> V) (c : Z) (df : list Txn) :
  values_of c (map (fun t : Txn => (CustomerID t, X t)) df)
  = map X (rows_of c df).
Proof.
  unfold values_of, rows_of.
  induction df as [|t df IH]; simpl; auto.
  destruct (option_eqb Z.eqb (CustomerID t) (Some c)); simpl; congruence.
Qed.

Lemma rows_of_In (c : Z) (df : list Txn) (t : Txn) :
  In t (rows_of c df) <-> In t df /\ CustomerID t = Some c.
Proof.
  unfold rows_of. rewrite filter_In.
  destruct (CustomerID t) as [k|]; simpl.
  - rewrite Z.eqb_eq. split; intros [H1 H2]; split; congruence.
  - split; intros [H1 H2]; discriminate.
Qed.

Lemma rows_of_nonempty (c : Z) (df : list Txn) :
  In (Some c) (customer_ids df) -> rows_of c df <> [].
Proof.
  unfold customer_ids. intros Hin. apply in_map_iff in Hin.
  destruct Hin as (t & Ht & Hin).
  assert (In t (rows_of c df)) by (apply rows_of_In; auto).
  intros E. rewrite E in H. contradiction.
Qed.

Lemma fold_left_absorb_Some {V A : Type} (init : V -> A) (step : A -> V -> A)
  (vs : list V) (a : A) :
  fold_left (absorb init step) vs (Some a) = Some (fold_left step vs a).
Proof.
  revert a. induction vs as [|v vs IH]; intros a; simpl; auto.
  unfold absorb at 2. apply IH.
Qed.

Lemma groupby_agg_assoc_cons {V A : Type} (init : V -> A) (step : A -> V -> A)
  (rows : list (option Z * V)) (j : Z) (v : V) (vs : list V) :
  values_of j rows = v :: vs ->
  assoc j (Pandas.groupby_agg init step rows)
  = Some (fold_left step vs (init v)).
Proof.
  intros E. rewrite groupby_agg_assoc, E. simpl.
  apply fold_left_absorb_Some.
Qed.

Lemma assoc_map_values {A B : Type} (f : A -> B) (k : Z) (m : list (Z * A)) :
  assoc k (map (fun kv => (fst kv, f (snd kv))) m) = option_map f (assoc k m).
Proof.
  induction m as [|[k' a] m IH]; simpl; auto.
  destruct (k' =? k); auto.
Qed.

Lemma fold_left_max_spec (vs : list Z) (v : Z) :
  In (fold_left Z.max vs v) (v :: vs)
  /\ Forall (fun x => x <= fold_left Z.max vs v) (v :: vs).
Proof.
  revert v. induction vs as [|w vs IH]; intros v; simpl.
  - split; auto. constructor; [lia | constructor].
  - destruct (IH (Z.max v w)) as [Hin Hall].
    inversion_clear Hall as [|? ? Hm Hvs].
    split.
    + destruct Hin as [E | Hin]; auto.
      destruct (Z.max_spec v w) as [[_ E'] | [_ E']];
        [right; left | left]; congruence.
    + constructor; [lia|]. constructor; [lia | exact Hvs].
Qed.

Lemma maximum_spec (l : list Z) :
  l <> [] -> In (maximum l) l /\ Forall (fun x => x <= maximum l) l.
Proof.
  destruct l as [|v l]; [congruence | intros _].
  unfold maximum.
  induction l as [|w l IH]; simpl.
  - split; auto. constructor; [lia | constructor].
  - destruct IH as [Hin Hall].
    inversion_clear Hall as [|? ? Hv Hl].
    split.
    + destruct (Z.max_spec w (fold_right Z.max v l)) as [[_ E] | [_ E]];
        rewrite E; auto.
      destruct Hin; auto.
    + constructor; [lia|]. constructor; [lia|].
      eapply Forall_impl; [|exact Hl]. simpl. intros; lia.
Qed.

Lemma greatest_unique (l : list Z) (m m' : Z) :
  In m l -> Forall (fun x => x <= m) l ->
  In m' l -> Forall (fun x => x <= m') l -> m = m'.
Proof.
  rewrite !Forall_forall. intros H1 H2 H3 H4.
  specialize (H2 _ H3). specialize (H4 _ H1). lia.
Qed.

Lemma fold_left_max_maximum (vs : list Z) (v : Z) :
  fold_left Z.max vs v = maximum (v :: vs).
Proof.
  destruct (fold_left_max_spec vs v) as [H1 H2].
  destruct (maximum_spec (v :: vs)) as [H3 H4]; [discriminate|].
  eapply greatest_unique; eauto.
Qed.

Lemma Series_max_maximum (l : list Z) :
  l <> [] -> Pandas.Series_max l = Some (maximum l).
Proof.
  destruct l as [|v l]; [congruence | intros _].
  unfold Pandas.Series_max. now rewrite fold_left_max_maximum.
Qed.

Lemma latest_date_spec (df : list Txn) :
  df <> [] -> latest_date df = Some (spec_reference_date df).
Proof.
  intros Hne. unfold latest_date, spec_reference_date.
  rewrite Series_max_maximum; auto.
  destruct df; [congruence | discriminate].
Qed.

Lemma recency_df_spec (df : list Txn) (c r : Z) :
  assoc c (recency_df df) = Some r -> r = spec_recency df c.
Proof.
  intros H.
  assert (Hc : In (Some c) (customer_ids df)).
  { apply keys_recency_df_In. apply assoc_Some_In in H.
    unfold keys. apply in_map_iff. exists (c, r). auto. }
  assert (Hne : df <> []) by (intros ->; contradiction).
  pose proof (rows_of_nonempty c df Hc) as Hrows.
  unfold recency_df in H. rewrite (latest_date_spec df Hne) in H.
  rewrite (assoc_map_values (fun d => dt_days (spec_reference_date df - d)))
    in H.
  destruct (map (fun t : Txn => InvoiceDate t) (rows_of c df)) as [|v vs] eqn:E.
  { destruct (rows_of c df); [congruence | discriminate]. }
  unfold Pandas.groupby_max in H.
  rewrite (groupby_agg_assoc_cons _ _ _ c v vs) in H
    by (rewrite values_of_column; exact E).
  simpl in H. inversion H. unfold spec_recency, dt_days.
  rewrite E, fold_left_max_maximum. reflexivity.
Qed.

Lemma add_unique_fold (vs acc : list string) :
  NoDup acc ->
  NoDup (fold_left Pandas.add_unique vs acc)
  /\ forall x,
       In x (fold_left Pandas.add_unique vs acc) <-> In x acc \/ In x vs.
Proof.
  revert acc. induction vs as [|v vs IH]; intros acc Hnd; simpl.
  - split; auto. intros x. tauto.
  - unfold Pandas.add_unique at 2 4.
    destruct (existsb (String.eqb v) acc) eqn:E.
    + destruct (IH acc Hnd) as [H1 H2]. split; auto.
      intros x. rewrite H2. split; [tauto|].
      intros [H | [<- | H]]; auto.
      apply existsb_exists in E. destruct E as (y & Hy & Heq).
      apply String.eqb_eq in Heq. subst. auto.
    + assert (Hnd' : NoDup (v :: acc)).
      { constructor; auto. intros Hin.
        assert (existsb (String.eqb v) acc = true).
        { apply existsb_exists. exists v. split; auto. apply String.eqb_refl. }
        congruence. }
      destruct (IH (v :: acc) Hnd') as [H1 H2]. split; auto.
      intros x. rewrite H2. simpl. tauto.
Qed.

Lemma nunique_length (v : string) (vs : list string) :
  length (fold_left Pandas.add_unique vs [v])
  = length (nodup string_dec (v :: vs)).
Proof.
  assert (Hnd : NoDup [v]) by (constructor; [simpl; tauto | constructor]).
  destruct (add_unique_fold vs [v] Hnd) as [H1 H2].
  apply Permutation_length. apply NoDup_Permutation; auto.
  - apply NoDup_nodup.
  - intros x. rewrite H2, nodup_In. simpl. tauto.
Qed.

Lemma frequency_df_spec (df : list Txn) (c f : Z) :
  assoc c (frequency_df df) = Some f -> f = spec_frequency df c.
Proof.
  intros H.
  assert (Hc : In (Some c) (customer_ids df)).
  { apply keys_frequency_df_In. apply assoc_Some_In in H.
    unfold keys. apply in_map_iff. exists (c, f). auto. }
  pose proof (rows_of_nonempty c df Hc) as Hrows.
  unfold frequency_df, Pandas.groupby_nunique in H.
  rewrite (assoc_map_values (fun l : list string => Z.of_nat (length l))) in H.
  destruct (map (fun t : Txn => InvoiceNo t) (rows_of c df)) as [|v vs] eqn:E.
  { destruct (rows_of c df); [congruence | discriminate]. }
  rewrite (groupby_agg_assoc_cons _ _ _ c v vs) in H
    by (rewrite values_of_column; exact E).
  simpl in H. inversion H. unfold spec_frequency.
  rewrite E, nunique_length. reflexivity.
Qed.

Lemma fold_left_Qplus (vs : list Q) (a : Q) :
  (fold_left Qplus vs a == a + Qsum vs)%Q.
Proof.
  revert a. induction vs as [|v vs IH]; intros a; simpl.
  - ring.
  - rewrite IH. ring.
Qed.

Lemma monetary_df_spec (df : list Txn) (c : Z) (m : Q) :
  assoc c (monetary_df df) = Some m -> (m == spec_monetary df c)%Q.
Proof.
  intros H.
  assert (Hc : In (Some c) (customer_ids df)).
  { apply keys_monetary_df_In. apply assoc_Some_In in H.
    unfold keys. apply in_map_iff. exists (c, m). auto. }
  pose proof (rows_of_nonempty c df Hc) as Hrows.
  unfold monetary_df, Pandas.groupby_sum in H.
  destruct (map TotalPrice (rows_of c df)) as [|v vs] eqn:E.
  { destruct (rows_of c df); [congruence | discriminate]. }
  rewrite (groupby_agg_assoc_cons _ _ _ c v vs) in H
    by (rewrite values_of_column; exact E).
  inversion H. unfold spec_monetary. rewrite E, fold_left_Qplus.
  simpl. reflexivity.
Qed.

Lemma spec_recency_positive (df : list Txn) (c : Z) :
  In (Some c) (customer_ids df) -> 1 <= spec_recency df c.
Proof.
  intros Hc. pose proof (rows_of_nonempty c df Hc) as Hrows.
  unfold spec_recency, spec_reference_date.
  set (all := map (fun t : Txn => InvoiceDate t) df).
  set (own := map (fun t : Txn => InvoiceDate t) (rows_of c df)).
  assert (Hown : own <> [])
    by (subst own; destruct (rows_of c df); [congruence | discriminate]).
  destruct (maximum_spec own Hown) as [Hin _].
  assert (Hall : In (maximum own) all).
  { subst own all. apply in_map_iff in Hin. destruct Hin as (t & E & Ht).
    apply rows_of_In in Ht. apply in_map_iff. exists t. tauto. }
  assert (Hne : all <> []) by (intros E; rewrite E in Hall; contradiction).
  destruct (maximum_spec all Hne) as [_ Hle].
  rewrite Forall_forall in Hle. specialize (Hle _ Hall).
  unfold Timedelta_days.
  apply Z.div_le_lower_bound; lia.
Qed.

(** C5: the metrics table has one row per customer of the frame, and on
    each row the reference date is the latest invoice timestamp plus one
    day, the recency is the whole number of days from the customer's most
    recent invoice to the reference date, the frequency is the number of
    distinct invoice identifiers of the customer, the monetary value is the
    sum of the customer's line totals, and the recency is not negative. *)
Theorem rfm_metrics_match_specification (df : list Txn) :
  (forall c, In (Some c) (customer_ids df)
             <-> In c (map Rfm.CustomerID (rfm df)))
  /\ NoDup (map Rfm.CustomerID (rfm df))
  /\ forall x, In x (rfm df) ->
       latest_date df = Some (spec_reference_date df)
       /\ Rfm.Recency x = spec_recency df (Rfm.CustomerID x)
       /\ Rfm.Frequency x = spec_frequency df (Rfm.CustomerID x)
       /\ (Rfm.Monetary x == spec_monetary df (Rfm.CustomerID x))%Q
       /\ 0 <= Rfm.Recency x.
Proof.
  split; [|split].
  - intros c. symmetry. apply rfm_customers_In.
  - apply increasing_NoDup, rfm_customers_increasing.
  - intros x Hx.
    destruct (rfm_row_assoc df x Hx) as (Hr & Hf & Hm).
    assert (Hc : In (Some (Rfm.CustomerID x)) (customer_ids df))
      by (apply rfm_customers_In, in_map, Hx).
    assert (Hne : df <> []) by (intros ->; contradiction).
    apply recency_df_spec in Hr. apply frequency_df_spec in Hf.
    apply monetary_df_spec in Hm.
    repeat split; auto.
    + now apply latest_date_spec.
    + rewrite Hr. pose proof (spec_recency_positive df _ Hc). lia.
Qed.

(** The example of the specification: invoices on 2011-01-01 and
    2011-01-10, reference date 2011-01-11, give frequency 2 and recency 1. *)
Lemma two_invoices_metrics :
  exists x, In x (rfm two_invoices)
    /\ Rfm.CustomerID x = 1
    /\ latest_date two_invoices = Some (Timestamp 2011 1 11)
    /\ spec_recency two_invoices 1 = 1 /\ Rfm.Recency x = 1
    /\ spec_frequency two_invoices 1 = 2 /\ Rfm.Frequency x = 2.
Proof.
  destruct (rfm_metrics_match_specification two_invoices) as (_ & _ & H).
  eexists. split; [vm_compute; left; reflexivity|].
  match goal with
  | |- ?c = 1 /\ _ =>
      match c with
      | Rfm.CustomerID ?x =>
          destruct (H x) as (Hd & Hr & Hf & _ & _);
          [vm_compute; left; reflexivity|]
      end
  end.
  simpl in Hr, Hf. rewrite <- Hr, <- Hf, Hd.
  repeat split; vm_compute; reflexivity.
Defined.

(** ** Conservation of revenue under the group-by *)

Lemma Qsum_cons (v : Q) (l : list Q) : Qsum (v :: l) = (v + Qsum l)%Q.
Proof.
  reflexivity.
Qed.









(** ** Sorting a column *)

Lemma insert_sorted_perm (v : Q) (s : list Q) :
  Permutation (Pandas.insert_sorted v s) (v :: s).
Proof.
  induction s as [|w s IH]; simpl; auto.
  destruct (Qle_bool v w); auto.
  rewrite IH. apply perm_swap.
Qed.

Lemma sort_values_perm (x : list Q) : Permutation (Pandas.sort_values x) x.
Proof.
  induction x as [|v x IH]; simpl; auto.
  rewrite insert_sorted_perm. now constructor.
Qed.

Lemma sort_values_length (x : list Q) :
  length (Pandas.sort_values x) = length x.
Proof.
  apply Permutation_length, sort_values_perm.
Qed.

Lemma sort_values_In (x : list Q) (v : Q) :
  In v (Pandas.sort_values x) <-> In v x.
Proof.
  split; apply Permutation_in; [|symmetry]; apply sort_values_perm.
Qed.

Lemma insert_sorted_In (v w : Q) (s : list Q) :
  In w (Pandas.insert_sorted v s) <-> w = v \/ In w s.
Proof.
  split; intros H.
  - apply (Permutation_in _ (insert_sorted_perm v s)) in H.
    destruct H; auto.
  - apply (Permutation_in _ (Permutation_sym (insert_sorted_perm v s))).
    destruct H; [left | right]; auto.
Qed.

Lemma Qle_bool_false (a b : Q) : Qle_bool a b = false -> (b < a)%Q.
Proof.
  intros H. apply Qnot_le_lt. intros Hle.
  apply Qle_bool_iff in Hle. congruence.
Qed.

Lemma insert_sorted_sorted (v : Q) (s : list Q) :
  StronglySorted Qle s -> StronglySorted Qle (Pandas.insert_sorted v s).
Proof.
  induction 1 as [|w s Hs IH Hw]; simpl.
  - repeat constructor.
  - destruct (Qle_bool v w) eqn:E.
    + apply Qle_bool_iff in E. constructor; [constructor; auto|].
      constructor; auto.
      eapply Forall_impl; [|exact Hw]. simpl. intros u Hu.
      eapply Qle_trans; eauto.
    + apply Qle_bool_false in E. constructor; auto.
      apply Forall_forall. intros u Hu. apply insert_sorted_In in Hu.
      destruct Hu as [-> | Hu].
      * now apply Qlt_le_weak.
      * rewrite Forall_forall in Hw. auto.
Qed.

Lemma sort_values_sorted (x : list Q) :
  StronglySorted Qle (Pandas.sort_values x).
Proof.
  induction x as [|v x IH]; simpl.
  - constructor.
  - now apply insert_sorted_sorted.
Qed.

Lemma not_InA_Qeq (v : Q) (s : list Q) :
  ~ InA Qeq v s -> forall w, In w s -> ~ (v == w)%Q.
Proof.
  intros H w Hw E. apply H. apply InA_alt. exists w. auto.
Qed.

Lemma insert_sorted_strict (v : Q) (s : list Q) :
  StronglySorted Qlt s -> (forall w, In w s -> ~ (v == w)%Q) ->
  StronglySorted Qlt (Pandas.insert_sorted v s).
Proof.
  induction 1 as [|w s Hs IH Hw]; simpl; intros Hv.
  - repeat constructor.
  - destruct (Qle_bool v w) eqn:E.
    + apply Qle_bool_iff in E.
      assert (Hlt : (v < w)%Q).
      { apply Qle_lt_or_eq in E. destruct E as [E | E]; auto.
        exfalso. apply (Hv w); simpl; auto. }
      constructor; [constructor; auto|].
      constructor; auto.
      eapply Forall_impl; [|exact Hw]. simpl. intros u Hu.
      eapply Qlt_trans; eauto.
    + apply Qle_bool_false in E. constructor.
      * apply IH. intros u Hu. apply Hv. simpl. auto.
      * apply Forall_forall. intros u Hu. apply insert_sorted_In in Hu.
        destruct Hu as [-> | Hu]; auto.
        rewrite Forall_forall in Hw. auto.
Qed.

Lemma sort_values_strict (x : list Q) :
  distinct_values x -> StronglySorted Qlt (Pandas.sort_values x).
Proof.
  induction 1 as [|v x Hv Hx IH]; simpl.
  - constructor.
  - apply insert_sorted_strict; auto.
    intros w Hw. apply (proj1 (sort_values_In x w)) in Hw.
    exact (not_InA_Qeq v x Hv w Hw).
Qed.

Lemma StronglySorted_nth {A : Type} (R : A -> A -> Prop) (d : A) (a : list A) :
  StronglySorted R a ->
  forall i j, (i < j < length a)%nat -> R (nth i a d) (nth j a d).
Proof.
  induction 1 as [|v a Hs IH Hv]; simpl; intros i j Hij.
  - lia.
  - destruct j as [|j]; [lia|].
    destruct i as [|i].
    + rewrite Forall_forall in Hv. apply Hv. apply nth_In. lia.
    + apply IH. lia.
Qed.

Lemma sorted_nth_le (a : list Q) (i j : nat) :
  StronglySorted Qle a -> (i <= j < length a)%nat ->
  (nth i a 0 <= nth j a 0)%Q.
Proof.
  intros Hs Hij. destruct (Nat.eq_dec i j) as [-> | Hne].
  - apply Qle_refl.
  - apply StronglySorted_nth; auto. lia.
Qed.

Lemma strict_sorted_le (a : list Q) :
  StronglySorted Qlt a -> StronglySorted Qle a.
Proof.
  induction 1 as [|v a Hs IH Hv]; constructor; auto.
  eapply Forall_impl; [|exact Hv]. simpl. intros. now apply Qlt_le_weak.
Qed.

(** ** The decile edges: linear interpolation between order statistics *)

Ltac Zify.zify_post_hook ::= Z.to_euclidean_division_equations.

Lemma linspace01_10 :
  Pandas.linspace01 10
  = [0 # 10; 1 # 10; 2 # 10; 3 # 10; 4 # 10; 5 # 10; 6 # 10; 7 # 10;
     8 # 10; 9 # 10; 10 # 10]%Q.
Proof.
  reflexivity.
Qed.

Lemma gamma_fraction (num : Z) :
  ((num # 10) - inject_Z (num / 10) == (num mod 10) # 10)%Q.
Proof.
  unfold Qeq, Qminus, Qplus, Qopp, inject_Z. simpl. lia.
Qed.

Lemma lerp_quantile_tenth (a : list Q) (k : Z) :
  let m := Z.of_nat (length a) - 1 in
  let p := k * m / 10 in
  (Pandas.lerp_quantile a (k # 10)
   == nth (Z.to_nat p) a 0
      + (nth (Z.to_nat (Z.min (p + 1) m)) a 0 - nth (Z.to_nat p) a 0)
        * ((k * m mod 10) # 10))%Q.
Proof.
  intros m p. unfold Pandas.lerp_quantile. fold m.
  assert (E : ((k # 10) * inject_Z m)%Q = (k * m # 10)%Q) by reflexivity.
  rewrite E. change (Qfloor (k * m # 10)) with (k * m / 10).
  subst p. cbv zeta. rewrite (gamma_fraction (k * m)). reflexivity.
Qed.

Lemma edge_formula (a : list Q) (k : nat) :
  (k <= 10)%nat -> (0 < length a)%nat ->
  let m := (length a - 1)%nat in
  let p := (k * m / 10)%nat in
  (nth k (edges a) 0
   == nth p a 0
      + (nth (Nat.min (p + 1) m) a 0 - nth p a 0)
        * (Z.of_nat (k * m mod 10) # 10))%Q.
Proof.
  intros Hk Hn m p.
  assert (Hlev : nth k (edges a) 0%Q
                 = Pandas.lerp_quantile a (Z.of_nat k # 10)).
  { unfold edges. rewrite linspace01_10.
    do 11 (destruct k as [|k]; [reflexivity|]). lia. }
  rewrite Hlev, lerp_quantile_tenth.
  replace (Z.of_nat (length a) - 1) with (Z.of_nat m) by (subst m; lia).
  rewrite <- Nat2Z.inj_mul. subst p.
  generalize (k * m)%nat as N. intros N.
  change 10 with (Z.of_nat 10).
  rewrite <- Nat2Z.inj_div, <- Nat2Z.inj_mod, Nat2Z.id.
  replace (Z.to_nat (Z.min (Z.of_nat (N / 10) + 1) (Z.of_nat m)))
    with (Nat.min (N / 10 + 1) m) by lia.
  reflexivity.
Qed.

Lemma tenth_fraction_bounds (r : nat) :
  (r < 10)%nat -> (0 <= Z.of_nat r # 10 /\ Z.of_nat r # 10 < 1)%Q.
Proof.
  intros Hr. unfold Qle, Qlt. simpl. lia.
Qed.

Lemma tenth_fraction_lt (r r' : nat) :
  (r < r')%nat -> (Z.of_nat r # 10 < Z.of_nat r' # 10)%Q.
Proof.
  intros Hr. unfold Qlt. simpl. lia.
Qed.

Ltac divmod10 N :=
  let H := fresh "Hdiv" in
  let H' := fresh "Hmod" in
  pose proof (Nat.div_mod N 10 ltac:(discriminate)) as H;
  pose proof (Nat.mod_upper_bound N 10 ltac:(discriminate)) as H'.

Lemma edge_between (a : list Q) (k : nat) :
  StronglySorted Qle a -> (k <= 10)%nat -> (0 < length a)%nat ->
  let m := (length a - 1)%nat in
  let p := (k * m / 10)%nat in
  (nth p a 0 <= nth k (edges a) 0
   /\ nth k (edges a) 0 <= nth (Nat.min (p + 1) m) a 0)%Q.
Proof.
  intros Hs Hk Hn m p.
  pose proof (edge_formula a k Hk Hn) as E. cbv zeta in E. fold m p in E.
  divmod10 (k * m)%nat. fold p in Hdiv.
  destruct (tenth_fraction_bounds (k * m mod 10) Hmod) as [H0 H1].
  assert (Hp : (p <= m)%nat) by nia.
  assert (Hlo : (nth p a 0 <= nth (Nat.min (p + 1) m) a 0)%Q)
    by (apply sorted_nth_le; auto; lia).
  rewrite E. split; nra.
Qed.

Lemma edge_first (a : list Q) :
  (0 < length a)%nat -> (nth 0 (edges a) 0 == nth 0 a 0)%Q.
Proof.
  intros Hn. rewrite (edge_formula a 0) by lia. simpl. ring.
Qed.

Lemma edge_last (a : list Q) :
  (0 < length a)%nat ->
  (nth 10 (edges a) 0 == nth (length a - 1) a 0)%Q.
Proof.
  intros Hn. rewrite (edge_formula a 10) by lia.
  set (m := (length a - 1)%nat).
  replace (10 * m / 10)%nat with m
    by (rewrite Nat.mul_comm, Nat.div_mul; auto).
  replace (10 * m mod 10)%nat with 0%nat
    by (rewrite Nat.mul_comm, Nat.Div0.mod_mul; auto).
  simpl. ring.
Qed.



Lemma edges_increasing (a : list Q) (k k' : nat) :
  StronglySorted Qlt a -> (2 <= length a)%nat -> (k < k' <= 10)%nat ->
  (nth k (edges a) 0 < nth k' (edges a) 0)%Q.
Proof.
  intros Hs Hn Hk.
  assert (Hn0 : (0 < length a)%nat) by lia.
  pose proof (strict_sorted_le a Hs) as Hs'.
  set (m := (length a - 1)%nat).
  pose proof (edge_formula a k ltac:(lia) Hn0) as E.
  pose proof (edge_formula a k' ltac:(lia) Hn0) as E'.
  cbv zeta in E, E'. fold m in E, E'.
  destruct (edge_between a k' Hs' ltac:(lia) Hn0) as [Hlo' _]. fold m in Hlo'.
  divmod10 (k * m)%nat. divmod10 (k' * m)%nat.
  set (p := (k * m / 10)%nat) in *.
  set (p' := (k' * m / 10)%nat) in *.
  destruct (tenth_fraction_bounds _ Hmod) as [H0 H1].
  assert (Hm : (1 <= m)%nat) by (subst m; lia).
  assert (HN : (k * m < k' * m)%nat) by nia.
  assert (HN' : (k' * m <= 10 * m)%nat) by nia.
  assert (Hp : (p + 1 <= m)%nat) by lia.
  rewrite Nat.min_l in E by lia.
  assert (Hstep : (nth p a 0 < nth (p + 1) a 0)%Q)
    by (apply StronglySorted_nth; auto; lia).
  destruct (Nat.eq_dec p p') as [Epp | Hne].
  - rewrite <- Epp in E'. rewrite Nat.min_l in E' by lia.
    assert (Hr : (k * m mod 10 < k' * m mod 10)%nat) by lia.
    apply tenth_fraction_lt in Hr.
    rewrite E, E'. nra.
  - assert ((nth (p + 1) a 0 <= nth p' a 0)%Q)
      by (apply sorted_nth_le; auto; lia).
    rewrite E. nra.
Qed.

(** ** Unique edges *)

Lemma unique_from_length_le (seen l : list Q) :
  (length (Pandas.unique_from seen l) <= length l)%nat.
Proof.
  revert seen. induction l as [|v l IH]; intros seen; simpl; auto.
  destruct (existsb (Qeq_bool v) seen); simpl.
  - specialize (IH seen). lia.
  - specialize (IH (v :: seen)). lia.
Qed.

Lemma existsb_Qeq_false (v : Q) (seen : list Q) :
  existsb (Qeq_bool v) seen = false <-> forall s, In s seen -> ~ (v == s)%Q.
Proof.
  split.
  - intros H s Hs E.
    assert (existsb (Qeq_bool v) seen = true).
    { apply existsb_exists. exists s. split; auto. now apply Qeq_bool_iff. }
    congruence.
  - intros H. destruct (existsb (Qeq_bool v) seen) eqn:E; auto.
    apply existsb_exists in E. destruct E as (s & Hs & E).
    apply Qeq_bool_iff in E. exfalso. eapply H; eauto.
Qed.

Lemma unique_from_full (seen l : list Q) :
  length (Pandas.unique_from seen l) = length l ->
  NoDupA Qeq l /\ forall v s, In v l -> In s seen -> ~ (v == s)%Q.
Proof.
  revert seen. induction l as [|v l IH]; intros seen; simpl.
  - intros _. split; [constructor | intros; contradiction].
  - destruct (existsb (Qeq_bool v) seen) eqn:E; simpl; intros Hlen.
    + pose proof (unique_from_length_le seen l). lia.
    + destruct (IH (v :: seen)) as [Hnd Hfresh]; [lia|].
      split.
      * constructor; auto. intros Hin. apply InA_alt in Hin.
        destruct Hin as (u & Hvu & Hu).
        apply (Hfresh u v Hu); simpl; auto. now symmetry.
      * intros u s [<- | Hu] Hs.
        -- now apply (proj1 (existsb_Qeq_false v seen) E).
        -- apply (Hfresh u s Hu). simpl. auto.
Qed.

Lemma unique_from_id (seen l : list Q) :
  NoDupA Qeq l -> (forall v s, In v l -> In s seen -> ~ (v == s)%Q) ->
  Pandas.unique_from seen l = l.
Proof.
  intros Hnd. revert seen.
  induction Hnd as [|v l Hv Hnd IH]; intros seen Hfresh; simpl; auto.
  replace (existsb (Qeq_bool v) seen) with false.
  - f_equal. apply IH. intros u s Hu [<- | Hs].
    + intros E. apply Hv. apply InA_alt. exists u. split; auto. now symmetry.
    + apply Hfresh; simpl; auto.
  - symmetry. apply existsb_Qeq_false. intros s Hs.
    apply Hfresh; simpl; auto.
Qed.

Lemma unique_from_seen (seen l : list Q) :
  (forall v, In v l -> exists s, In s seen /\ (v == s)%Q) ->
  Pandas.unique_from seen l = [].
Proof.
  induction l as [|v l IH]; simpl; intros H; auto.
  replace (existsb (Qeq_bool v) seen) with true.
  - apply IH. intros u Hu. apply H. auto.
  - symmetry. apply existsb_exists.
    destruct (H v) as (s & Hs & E); auto.
    exists s. split; auto. now apply Qeq_bool_iff.
Qed.

Lemma strict_sorted_NoDupA (l : list Q) : StronglySorted Qlt l -> NoDupA Qeq l.
Proof.
  induction 1 as [|v l Hs IH Hv]; constructor; auto.
  intros Hin. apply InA_alt in Hin. destruct Hin as (u & E & Hu).
  rewrite Forall_forall in Hv. specialize (Hv u Hu). lra.
Qed.


Lemma nth_increasing_sorted (l : list Q) :
  (forall i j, (i < j < length l)%nat -> (nth i l 0 < nth j l 0)%Q) ->
  StronglySorted Qlt l.
Proof.
  induction l as [|v l IH]; intros H.
  - constructor.
  - constructor.
    + apply IH. intros i j Hij. apply (H (S i) (S j)). simpl. lia.
    + apply Forall_forall. intros u Hu.
      destruct (In_nth l u 0%Q Hu) as (j & Hj & <-).
      apply (H 0%nat (S j)). simpl. lia.
Qed.

Lemma edges_length (a : list Q) : length (edges a) = 11%nat.
Proof.
  reflexivity.
Qed.

Lemma edges_strictly_sorted (a : list Q) :
  StronglySorted Qlt a -> (2 <= length a)%nat -> StronglySorted Qlt (edges a).
Proof.
  intros Hs Hn. apply nth_increasing_sorted. intros i j Hij.
  rewrite edges_length in Hij. apply edges_increasing; auto. lia.
Qed.

(** ** Searching the edges *)

Lemma searchsorted_left_le (bins : list Q) (v : Q) (b : nat) :
  (b < length bins)%nat -> (v <= nth b bins 0)%Q ->
  (Pandas.searchsorted_left bins v <= b)%nat.
Proof.
  revert b. induction bins as [|e bins IH]; simpl; intros b Hb Hv.
  - lia.
  - destruct (Qlt_bool e v) eqn:E; [|lia].
    apply Qlt_bool_iff in E.
    destruct b as [|b].
    + lra.
    + apply le_n_S. apply IH; auto. lia.
Qed.

Lemma searchsorted_left_ge (bins : list Q) (v : Q) (c : nat) :
  (c <= length bins)%nat ->
  (forall i, (i < c)%nat -> (nth i bins 0 < v)%Q) ->
  (c <= Pandas.searchsorted_left bins v)%nat.
Proof.
  revert c. induction bins as [|e bins IH]; simpl; intros c Hc Hlt.
  - lia.
  - destruct c as [|c]; [lia|].
    replace (Qlt_bool e v) with true
      by (symmetry; apply Qlt_bool_iff; apply (Hlt 0%nat); lia).
    apply le_n_S. apply IH; [lia|].
    intros i Hi. apply (Hlt (S i)). lia.
Qed.


(** ** What a successful [qcut] returns *)

Lemma qcut_Ok (x : list Q) (labels : list Z) (cats : list (option Z)) :
  Pandas.qcut x 10 labels = Ok cats ->
  x <> [] /\ NoDupA Qeq (decile_edges x) /\ length labels = 10%nat
  /\ cats = map (Pandas.cut_label (decile_edges x) labels) x.
Proof.
  unfold Pandas.qcut. destruct x as [|v x]; [discriminate|].
  change (Pandas.Series_quantile (v :: x) (Pandas.linspace01 10))
    with (Some (decile_edges (v :: x))).
  unfold Pandas.bins_to_cuts.
  change (length (decile_edges (v :: x))) with 11%nat.
  destruct (Nat.ltb_spec (length (Pandas.unique (decile_edges (v :: x)))) 11)
    as [Hlt | Hge]; [discriminate|].
  simpl andb. cbv iota.
  destruct (Nat.eqb_spec (length labels) (11 - 1)) as [Hlab | Hlab];
    [|discriminate].
  simpl negb. cbv iota. intros H. inversion H.
  repeat split; auto; [discriminate|].
  apply (unique_from_full [] (decile_edges (v :: x))).
  pose proof (unique_from_length_le [] (decile_edges (v :: x))) as Hle.
  unfold Pandas.unique in Hge.
  change (length (decile_edges (v :: x))) with 11%nat in *. lia.
Qed.

Lemma qcut_distinct_edges (x : list Q) (labels : list Z) :
  x <> [] -> NoDupA Qeq (decile_edges x) -> length labels = 10%nat ->
  Pandas.qcut x 10 labels
  = Ok (map (Pandas.cut_label (decile_edges x) labels) x).
Proof.
  intros Hx Hnd Hlab. unfold Pandas.qcut.
  destruct x as [|v x]; [congruence|].
  change (Pandas.Series_quantile (v :: x) (Pandas.linspace01 10))
    with (Some (decile_edges (v :: x))).
  unfold Pandas.bins_to_cuts, Pandas.unique.
  rewrite unique_from_id; auto.
  change (length (decile_edges (v :: x))) with 11%nat.
  rewrite Hlab. reflexivity.
Qed.

Lemma astype_int_Ok (cats : list (option Z)) (sc : list Z) :
  Pandas.astype_int cats = Ok sc <-> cats = map Some sc.
Proof.
  revert sc. induction cats as [|[c|] cats IH]; intros sc; simpl.
  - split; intros H.
    + inversion H. reflexivity.
    + destruct sc; [reflexivity | discriminate].
  - destruct (Pandas.astype_int cats) as [vs|e] eqn:E; simpl.
    + split; intros H.
      * inversion H. simpl. f_equal. now apply IH.
      * destruct sc as [|s sc]; [discriminate|]. inversion H.
        f_equal. f_equal. subst.
        assert (Ok vs = Ok sc) as E' by (now apply IH). now inversion E'.
    + split; [discriminate|]. intros H.
      destruct sc as [|s sc]; [discriminate|]. inversion H. subst.
      assert (Err e = Ok sc) as E' by (now apply IH). discriminate.
  - split; [discriminate|]. intros H. destruct sc; discriminate.
Qed.

(** ** The bin of a value of the column *)

Section BinOfValue.
Variable x : list Q.

Lemma value_position (v : Q) :
  In v x ->
  exists j, (j < length (Pandas.sort_values x))%nat
            /\ nth j (Pandas.sort_values x) 0%Q = v.
Proof.
  intros Hv. apply In_nth. now apply sort_values_In.
Qed.


Lemma first_edge_le_value (v : Q) :
  In v x -> (nth 0 (decile_edges x) 0 <= v)%Q.
Proof.
  intros Hv. destruct (value_position v Hv) as (j & Hj & <-).
  unfold decile_edges. rewrite edge_first by lia.
  apply sorted_nth_le; [apply sort_values_sorted | lia].
Qed.

Lemma value_le_last_edge (v : Q) :
  In v x -> (v <= nth 10 (decile_edges x) 0)%Q.
Proof.
  intros Hv. destruct (value_position v Hv) as (j & Hj & <-).
  unfold decile_edges. rewrite edge_last by lia.
  apply sorted_nth_le; [apply sort_values_sorted | lia].
Qed.




Lemma bin_id_bounds (v : Q) :
  In v x -> (1 <= Pandas.bin_id (decile_edges x) v <= 10)%nat.
Proof.
  intros Hv. unfold Pandas.bin_id.
  destruct (Qeq_bool v (hd 0%Q (decile_edges x))) eqn:E; [lia|].
  pose proof (first_edge_le_value v Hv) as Hlo.
  pose proof (value_le_last_edge v Hv) as Hhi.
  split.
  - apply searchsorted_left_ge;
      [change (length (decile_edges x)) with 11%nat; lia|].
    intros i Hi. replace i with 0%nat by lia.
    apply Qle_lt_or_eq in Hlo. destruct Hlo as [Hlo | Hlo]; auto.
    symmetry in Hlo. apply Qeq_bool_iff in Hlo.
    change (hd 0%Q (decile_edges x)) with (nth 0 (decile_edges x) 0%Q) in E.
    congruence.
  - apply searchsorted_left_le;
      [change (length (decile_edges x)) with 11%nat; lia | exact Hhi].
Qed.


End BinOfValue.

(** ** Ranking with ties broken by position *)

Lemma count_lt_eq_le (v w : Z) (s : list Z) :
  v < w ->
  (Pandas.count_lt v s + Pandas.count_eq v s <= Pandas.count_lt w s)%nat.
Proof.
  intros Hvw. unfold Pandas.count_lt, Pandas.count_eq.
  induction s as [|u s IH]; simpl; auto.
  destruct (Z.ltb_spec u v), (Z.eqb_spec u v), (Z.ltb_spec u w);
    simpl; lia.
Qed.

Lemma count_eq_firstn_lt (v : Z) (s : list Z) (j : nat) :
  (j < length s)%nat -> nth j s 0 = v ->
  (Pandas.count_eq v (firstn j s) < Pandas.count_eq v s)%nat.
Proof.
  unfold Pandas.count_eq. revert j.
  induction s as [|u s IH]; simpl; intros j Hj Hv.
  - lia.
  - destruct j as [|j]; simpl.
    + subst u. rewrite Z.eqb_refl. simpl. lia.
    + specialize (IH j ltac:(lia) Hv).
      destruct (u =? v); simpl; lia.
Qed.

Lemma rank_at_lt (s : list Z) (i j : nat) :
  (i < length s)%nat -> (j < length s)%nat ->
  nth j s 0 < nth i s 0 \/ (nth j s 0 = nth i s 0 /\ (j < i)%nat) ->
  Pandas.rank_at s j < Pandas.rank_at s i.
Proof.
  intros Hi Hj H. unfold Pandas.rank_at.
  destruct H as [Hlt | [Heq Hji]].
  - pose proof (count_lt_eq_le _ _ s Hlt).
    pose proof (count_eq_firstn_lt (nth j s 0) s j Hj eq_refl). lia.
  - rewrite Heq.
    assert (Hlen : (j < length (firstn i s))%nat)
      by (rewrite length_firstn; lia).
    assert (Hnth : nth j (firstn i s) 0 = nth i s 0).
    { rewrite <- Heq.
      rewrite <- (firstn_skipn i s) at 2. rewrite app_nth1; auto. }
    pose proof (count_eq_firstn_lt (nth i s 0) (firstn i s) j Hlen Hnth) as H.
    rewrite firstn_firstn in H. rewrite Nat.min_l in H by lia. lia.
Qed.

Lemma rank_at_ne (s : list Z) (i j : nat) :
  (i < length s)%nat -> (j < length s)%nat -> i <> j ->
  Pandas.rank_at s i <> Pandas.rank_at s j.
Proof.
  intros Hi Hj Hne.
  destruct (Z.lt_trichotomy (nth i s 0) (nth j s 0)) as [H | [H | H]].
  - pose proof (rank_at_lt s j i Hj Hi (or_introl H)). lia.
  - destruct (Nat.lt_ge_cases i j).
    + pose proof (rank_at_lt s j i Hj Hi (or_intror (conj H H0))). lia.
    + assert (Hlt : (j < i)%nat) by lia. symmetry in H.
      pose proof (rank_at_lt s i j Hi Hj (or_intror (conj H Hlt))). lia.
  - pose proof (rank_at_lt s i j Hi Hj (or_introl H)). lia.
Qed.

Lemma rank_first_length (s : list Z) :
  length (Pandas.rank_first s) = length s.
Proof.
  unfold Pandas.rank_first. now rewrite length_map, length_seq.
Qed.

Lemma rank_first_nth (s : list Z) (i : nat) :
  (i < length s)%nat -> nth i (Pandas.rank_first s) 0 = Pandas.rank_at s i.
Proof.
  intros Hi. unfold Pandas.rank_first.
  rewrite (nth_indep _ 0 (Pandas.rank_at s 0))
    by (rewrite length_map, length_seq; exact Hi).
  rewrite map_nth, seq_nth by exact Hi. reflexivity.
Qed.

Lemma rank_values_length (tbl : list Rfm.t) :
  length (rank_values tbl) = length tbl.
Proof.
  unfold rank_values. now rewrite length_map, rank_first_length, length_map.
Qed.

Lemma rank_values_nth (tbl : list Rfm.t) (i : nat) :
  (i < length tbl)%nat ->
  nth i (rank_values tbl) 0%Q
  = inject_Z (Pandas.rank_at (map Rfm.Frequency tbl) i).
Proof.
  intros Hi. unfold rank_values.
  change 0%Q with (inject_Z 0). rewrite map_nth.
  rewrite rank_first_nth by (rewrite length_map; exact Hi). reflexivity.
Qed.

Lemma NoDupA_of_nth (l : list Q) :
  (forall i j, (i < j < length l)%nat -> ~ (nth i l 0 == nth j l 0)%Q) ->
  NoDupA Qeq l.
Proof.
  induction l as [|v l IH]; intros H.
  - constructor.
  - constructor.
    + intros Hin. apply InA_alt in Hin. destruct Hin as (u & E & Hu).
      destruct (In_nth l u 0%Q Hu) as (j & Hj & <-).
      apply (H 0%nat (S j)); simpl; auto. lia.
    + apply IH. intros i j Hij. apply (H (S i) (S j)). simpl. lia.
Qed.

Lemma inject_Z_Qeq (a b : Z) : (inject_Z a == inject_Z b)%Q -> a = b.
Proof.
  unfold Qeq. simpl. lia.
Qed.

Lemma rank_values_distinct (tbl : list Rfm.t) :
  distinct_values (rank_values tbl).
Proof.
  apply NoDupA_of_nth. intros i j Hij. rewrite rank_values_length in Hij.
  rewrite !rank_values_nth by lia. intros E. apply inject_Z_Qeq in E.
  revert E. apply rank_at_ne; rewrite ?length_map; lia.
Qed.

(** ** The score columns *)

Lemma FM_labels_value : FM_labels = [1; 2; 3; 4; 5; 6; 7; 8; 9; 10].
Proof.
  reflexivity.
Qed.

Lemma R_labels_value : R_labels = [10; 9; 8; 7; 6; 5; 4; 3; 2; 1].
Proof.
  reflexivity.
Qed.

Lemma cut_label_ascending (bins : list Q) (v : Q) :
  length bins = 11%nat -> (1 <= Pandas.bin_id bins v <= 10)%nat ->
  Pandas.cut_label bins FM_labels v = Some (ascending_score bins v).
Proof.
  intros Hlen Hb. unfold Pandas.cut_label, ascending_score.
  rewrite Hlen, FM_labels_value.
  destruct (Pandas.bin_id bins v) as [|k]; [lia|].
  do 10 (destruct k as [|k]; [reflexivity|]). lia.
Qed.

Lemma cut_label_descending (bins : list Q) (v : Q) :
  length bins = 11%nat -> (1 <= Pandas.bin_id bins v <= 10)%nat ->
  Pandas.cut_label bins R_labels v = Some (descending_score bins v).
Proof.
  intros Hlen Hb. unfold Pandas.cut_label, descending_score.
  rewrite Hlen, R_labels_value.
  destruct (Pandas.bin_id bins v) as [|k]; [lia|].
  do 10 (destruct k as [|k]; [reflexivity|]). lia.
Qed.

Lemma astype_int_map {A : Type} (g : A -> option Z) (f : A -> Z) (l : list A) :
  (forall v, In v l -> g v = Some (f v)) ->
  Pandas.astype_int (map g l) = Ok (map f l).
Proof.
  induction l as [|v l IH]; simpl; intros H; auto.
  rewrite (H v) by auto. rewrite IH by auto. reflexivity.
Qed.

Lemma qcut_astype (x : list Q) (labels : list Z) (f : Q -> Z) :
  x <> [] -> NoDupA Qeq (decile_edges x) -> length labels = 10%nat ->
  (forall v, In v x ->
             Pandas.cut_label (decile_edges x) labels v = Some (f v)) ->
  (cats <- Pandas.qcut x 10 labels ;; Pandas.astype_int cats) = Ok (map f x).
Proof.
  intros Hx Hnd Hlab Hf. rewrite qcut_distinct_edges by auto.
  simpl. now apply astype_int_map.
Qed.

Lemma ascending_column (x : list Q) (sc : list Z) :
  (cats <- Pandas.qcut x 10 FM_labels ;; Pandas.astype_int cats) = Ok sc
  <-> x <> [] /\ NoDupA Qeq (decile_edges x)
      /\ sc = map (ascending_score (decile_edges x)) x.
Proof.
  assert (Hgo : x <> [] -> NoDupA Qeq (decile_edges x) ->
    (cats <- Pandas.qcut x 10 FM_labels ;; Pandas.astype_int cats)
    = Ok (map (ascending_score (decile_edges x)) x)).
  { intros Hx Hnd. apply qcut_astype; auto.
    intros v Hv. apply cut_label_ascending; [reflexivity|].
    now apply bin_id_bounds. }
  split.
  - intros H.
    assert (Hq : exists cats, Pandas.qcut x 10 FM_labels = Ok cats)
      by (destruct (Pandas.qcut x 10 FM_labels); [eauto | discriminate]).
    destruct Hq as (cats & E).
    destruct (qcut_Ok _ _ _ E) as (Hx & Hnd & _ & _).
    rewrite Hgo in H by auto. inversion H. auto.
  - intros (Hx & Hnd & ->). auto.
Qed.


(** Every exception of a score column is a [ValueError]. *)
Lemma astype_int_error_class (cats : list (option Z)) (e : exception) :
  Pandas.astype_int cats = Err e -> exn_class e = "ValueError".
Proof.
  revert e. induction cats as [|[c|] cats IH]; simpl; intros e H.
  - discriminate.
  - destruct (Pandas.astype_int cats); simpl in H; [discriminate|].
    inversion H. subst. auto.
  - inversion H. reflexivity.
Qed.

Lemma column_error_class (x : list Q) (labels : list Z) (e : exception) :
  (cats <- Pandas.qcut x 10 labels ;; Pandas.astype_int cats) = Err e ->
  exn_class e = "ValueError".
Proof.
  unfold Pandas.qcut, Pandas.bins_to_cuts.
  destruct (Pandas.Series_quantile x (Pandas.linspace01 10)) as [bins|].
  - destruct ((length (Pandas.unique bins) <? length bins)%nat
              && negb (length bins =? 2)%nat).
    + simpl. intros H. inversion H. reflexivity.
    + destruct (negb (length labels =? length bins - 1)%nat); simpl.
      * intros H. inversion H. reflexivity.
      * apply astype_int_error_class.
  - simpl. intros H. inversion H. reflexivity.
Qed.

(** A column whose values are all the same number has a single edge. *)
Lemma constant_column_edges (x : list Q) (c : Q) :
  x <> [] -> (forall w, In w x -> (w == c)%Q) ->
  forall e, In e (decile_edges x) -> (e == c)%Q.
Proof.
  intros Hx Hc e He.
  destruct (In_nth _ _ 0%Q He) as (k & Hk & <-).
  change (length (decile_edges x)) with 11%nat in Hk.
  set (a := Pandas.sort_values x).
  assert (Hn : (0 < length a)%nat).
  { unfold a. rewrite sort_values_length.
    destruct x; simpl; [congruence | lia]. }
  assert (Ha : forall i, (i < length a)%nat -> (nth i a 0 == c)%Q).
  { intros i Hi. apply Hc. apply sort_values_In. now apply nth_In. }
  destruct (edge_between a k (sort_values_sorted x) ltac:(lia) Hn) as [H1 H2].
  divmod10 (k * (length a - 1))%nat.
  rewrite Ha in H1 by nia. rewrite Ha in H2 by lia.
  unfold decile_edges. fold a. lra.
Qed.

Lemma constant_column_fails (x : list Q) (c : Q) (labels : list Z) :
  (forall w, In w x -> (w == c)%Q) ->
  Pandas.qcut x 10 labels = Err Pandas.bin_edges_error.
Proof.
  intros Hc. destruct x as [|v x]; [reflexivity|].
  pose proof (constant_column_edges (v :: x) c ltac:(discriminate) Hc) as He.
  unfold Pandas.qcut.
  change (Pandas.Series_quantile (v :: x) (Pandas.linspace01 10))
    with (Some (decile_edges (v :: x))).
  unfold Pandas.bins_to_cuts, Pandas.unique.
  change (length (decile_edges (v :: x))) with 11%nat.
  destruct (decile_edges (v :: x)) as [|e0 rest] eqn:E.
  { apply (f_equal (@length Q)) in E. discriminate. }
  simpl Pandas.unique_from.
  rewrite unique_from_seen; [reflexivity|].
  intros w Hw. exists e0. split; [now left|].
  rewrite (He w), (He e0); simpl; auto. reflexivity.
Qed.

(** ** The scored table *)




Lemma score_error_class (tbl : list Rfm.t) (e : exception) :
  score tbl = Err e -> exn_class e = "ValueError".
Proof.
  unfold score, R_Score_column, F_Score_column, M_Score_column. intros H.
  destruct (cats <- Pandas.qcut (recency_values tbl) 10 R_labels;;
            Pandas.astype_int cats) as [R|e1] eqn:ER.
  2:{ simpl in H. inversion H. subst. eapply column_error_class; eauto. }
  destruct (cats <- Pandas.qcut (rank_values tbl) 10 FM_labels;;
            Pandas.astype_int cats) as [F|e2] eqn:EF.
  2:{ simpl in H. inversion H. subst. eapply column_error_class; eauto. }
  destruct (cats <- Pandas.qcut (monetary_values tbl) 10 FM_labels;;
            Pandas.astype_int cats) as [M|e3] eqn:EM.
  2:{ simpl in H. inversion H. subst. eapply column_error_class; eauto. }
  discriminate.
Qed.



(** ** Rows, positions and ranks *)








(** ** Scores of the engine's table *)

Section EngineTable.
Variable df : list Txn.
Variable table : list Scored.t.
Hypothesis Hrun : rfm_engine df = Ok table.




















End EngineTable.

(** ** The composite code *)



(** ** C1 *)



(** ** Deciles of pairwise different values *)

Lemma distinct_edges_distinct (x : list Q) :
  distinct_values x -> (2 <= length x)%nat -> NoDupA Qeq (decile_edges x).
Proof.
  intros Hd Hn. apply strict_sorted_NoDupA. unfold decile_edges.
  apply edges_strictly_sorted.
  - now apply sort_values_strict.
  - now rewrite sort_values_length.
Qed.














(** ** C7 *)




(** ** How many customers the engine needs *)

Lemma distinct_customers_In (df : list Txn) (c : Z) :
  In c (distinct_customers df) <-> In (Some c) (customer_ids df).
Proof.
  unfold distinct_customers, customer_ids.
  rewrite nodup_In, in_flat_map, in_map_iff.
  split.
  - intros (t & Ht & Hc). exists t. split; auto.
    destruct (CustomerID t) as [k|]; simpl in Hc; [|contradiction].
    destruct Hc as [-> | []]. reflexivity.
  - intros (t & Hc & Ht). exists t. split; auto.
    rewrite Hc. now left.
Qed.

Lemma rfm_length (df : list Txn) :
  length (rfm df) = length (distinct_customers df).
Proof.
  rewrite <- (length_map Rfm.CustomerID).
  apply Permutation_length. apply NoDup_Permutation.
  - apply increasing_NoDup, rfm_customers_increasing.
  - apply NoDup_nodup.
  - intros c. now rewrite rfm_customers_In, distinct_customers_In.
Qed.

Lemma short_column_constant (x : list Q) :
  (length x <= 1)%nat -> forall w, In w x -> (w == hd 0 x)%Q.
Proof.
  destruct x as [|v [|v' x]]; simpl; intros Hlen w Hw.
  - contradiction.
  - destruct Hw as [<- | []]. reflexivity.
  - lia.
Qed.

Lemma score_short_table (tbl : list Rfm.t) :
  (length tbl <= 1)%nat -> score tbl = Err Pandas.bin_edges_error.
Proof.
  intros Hlen. unfold score, R_Score_column.
  rewrite (constant_column_fails (recency_values tbl)
             (hd 0%Q (recency_values tbl))).
  - reflexivity.
  - apply short_column_constant. unfold recency_values.
    now rewrite length_map.
Qed.

Lemma engine_needs_two_customers (df : list Txn) (table : list Scored.t) :
  rfm_engine df = Ok table -> (2 <= length (rfm df))%nat.
Proof.
  intros Hrun. destruct (Nat.le_gt_cases (length (rfm df)) 1) as [Hle|]; auto.
  unfold rfm_engine in Hrun. rewrite score_short_table in Hrun by exact Hle.
  discriminate.
Qed.

(** ** C2 *)




(** ** C3 *)

Lemma Qsum_positive (l : list Q) :
  l <> [] -> Forall (fun v => (0 < v)%Q) l -> (0 < Qsum l)%Q.
Proof.
  intros Hne Hall. destruct l as [|v l]; [congruence|]. clear Hne.
  revert v Hall. induction l as [|w l IH]; intros v Hall.
  - inversion_clear Hall. rewrite Qsum_cons. change (Qsum []) with 0%Q. lra.
  - inversion_clear Hall as [|? ? Hv Hrest].
    specialize (IH w Hrest). rewrite Qsum_cons. lra.
Qed.

Lemma cleaned_monetary_positive (df : list Txn) (x : Rfm.t) :
  Forall clean_record df -> In x (rfm df) -> (0 < Rfm.Monetary x)%Q.
Proof.
  intros Hclean Hx.
  destruct (rfm_row_assoc df x Hx) as (_ & _ & Hm).
  assert (Hc : In (Some (Rfm.CustomerID x)) (customer_ids df))
    by (apply rfm_customers_In, in_map, Hx).
  apply monetary_df_spec in Hm. rewrite Hm. unfold spec_monetary.
  apply Qsum_positive.
  - pose proof (rows_of_nonempty _ _ Hc).
    destruct (rows_of (Rfm.CustomerID x) df); [congruence | discriminate].
  - apply Forall_forall. intros v Hv. apply in_map_iff in Hv.
    destruct Hv as (t & <- & Ht). apply rows_of_In in Ht.
    rewrite Forall_forall in Hclean.
    destruct (Hclean t (proj1 Ht)) as (Hq & Hp & _ & _ & ->).
    apply Qmult_lt_0_compat; auto.
    change 0%Q with (inject_Z 0). now rewrite <- Zlt_Qlt.
Qed.

(** C3, as stated, fails: the monetary value of customer 10 in
    [with_a_return] is negative and the engine completes. *)
Lemma negative_monetary_is_scored :
  (exists x, In x (rfm with_a_return) /\ (Rfm.Monetary x < 0)%Q)
  /\ completes (rfm_engine with_a_return)
  /\ ~ fails_with "InvalidMetricError" (rfm_engine with_a_return).
Proof.
  split; [|split].
  - eexists. split.
    + vm_compute. do 9 right. left. reflexivity.
    + vm_compute. reflexivity.
  - destruct (rfm_engine with_a_return) as [table|] eqn:E;
      [|vm_compute in E; discriminate].
    now exists table.
  - intros (msg & H). vm_compute in H. discriminate.
Qed.

(** C3, amended: there is no check on the sign of the monetary values:
    whatever the frame, the engine never fails with InvalidMetricError, its
    exceptions being ValueErrors; and every monetary value computed from
    the output of the Cleaner is positive. *)
Theorem no_monetary_check (df : list Txn) :
  ~ fails_with "InvalidMetricError" (rfm_engine df)
  /\ (forall e, rfm_engine df = Err e -> exn_class e = "ValueError")
  /\ (forall raw x, In x (rfm (Cleaner raw)) -> (0 < Rfm.Monetary x)%Q).
Proof.
  split; [|split].
  - intros (msg & H). apply score_error_class in H. discriminate.
  - intros e. apply score_error_class.
  - intros raw x. apply cleaned_monetary_positive, Cleaner_clean_records.
Qed.

(** ** C6 *)


(** In binary64 too the ranks of ten times [t] customers are cut into
    ten runs of [t]: rank [k] is scored [(k + t - 1) / t].  Checked by
    evaluation for every [t] up to 50. *)
Lemma binary64_rank_deciles (t : nat) :
  (1 <= t <= 50)%nat ->
  Binary64.qcut
    (map Binary64.of_Z (range 1 (Z.of_nat (10 * t) + 1) 1)) 10 FM_labels
  = Ok (map (fun k => Some ((k + Z.of_nat t - 1) / Z.of_nat t))
            (range 1 (Z.of_nat (10 * t) + 1) 1)).
Proof.
  intros Ht. destruct t as [|t]; [lia|].
  do 50 (destruct t as [|t]; [vm_compute; reflexivity|]).
  lia.
Qed.




(** ** C10 *)

Lemma F_Score_column_completes (tbl : list Rfm.t) :
  (2 <= length tbl)%nat -> completes (F_Score_column tbl).
Proof.
  intros Hlen. eexists. unfold F_Score_column. apply ascending_column.
  split; [|split; [|reflexivity]].
  - intros E. apply (f_equal (@length Q)) in E.
    rewrite rank_values_length in E. simpl in E. lia.
  - apply distinct_edges_distinct.
    + apply rank_values_distinct.
    + now rewrite rank_values_length.
Qed.

Lemma same_recency_aborts (tbl : list Rfm.t) (c : Z) :
  (forall r, In r tbl -> Rfm.Recency r = c) ->
  R_Score_column tbl = Err Pandas.bin_edges_error.
Proof.
  intros H. unfold R_Score_column.
  rewrite (constant_column_fails (recency_values tbl) (inject_Z c)).
  - reflexivity.
  - intros w Hw. unfold recency_values in Hw. apply in_map_iff in Hw.
    destruct Hw as (r & <- & Hr). rewrite (H r Hr). reflexivity.
Qed.

Lemma same_monetary_aborts (tbl : list Rfm.t) (c : Q) :
  (forall r, In r tbl -> (Rfm.Monetary r == c)%Q) ->
  M_Score_column tbl = Err Pandas.bin_edges_error.
Proof.
  intros H. unfold M_Score_column.
  rewrite (constant_column_fails (monetary_values tbl) c).
  - reflexivity.
  - intros w Hw. unfold monetary_values in Hw. apply in_map_iff in Hw.
    destruct Hw as (r & <- & Hr). auto.
Qed.

(** C10, as stated, fails: fewer than ten distinct values do not make
    the binning abort.  [shared_day] is a cleaned frame of ten customers
    with positive monetary values and nine distinct recencies; the recency
    column is binned and the engine returns a table, in exact arithmetic
    and in binary64 alike. *)
Lemma nine_recencies_complete :
  Forall clean_record shared_day
  /\ (10 <= length (distinct_customers shared_day))%nat
  /\ Forall (fun x => (0 < Rfm.Monetary x)%Q) (rfm shared_day)
  /\ length (Pandas.unique (recency_values (rfm shared_day))) = 9%nat
  /\ completes (R_Score_column (rfm shared_day))
  /\ completes (rfm_engine shared_day)
  /\ completes (Binary64.scores shared_day).
Proof.
  split; [apply Cleaner_clean_records|].
  split; [vm_compute; repeat constructor|].
  split; [apply Forall_forall; intros x Hx;
          now apply cleaned_monetary_positive with (df := shared_day);
          [apply Cleaner_clean_records|]|].
  split; [vm_compute; reflexivity|].
  split; [eexists; vm_compute; reflexivity|].
  split; eexists; vm_compute; reflexivity.
Qed.

(** C10, amended: some cleaned frames with ten distinct customers and
    positive monetary values make the engine fail.  In [same_day] a single
    recency occurs and the binning of the recency column aborts on
    duplicate bin edges; in [same_spend] a single monetary value occurs
    and the binning of the monetary column aborts in the same way.  In
    both the frequency column, where a single count occurs, is binned: cut
    on the tie-broken rank, it is binned for every table of two or more
    customers.  A recency or monetary column whose values are all equal
    always aborts. *)
Theorem direct_binning_aborts_on_ties :
  (Forall clean_record same_day
   /\ (10 <= length (distinct_customers same_day))%nat
   /\ Forall (fun x => (0 < Rfm.Monetary x)%Q) (rfm same_day)
   /\ (length (Pandas.unique (recency_values (rfm same_day))) < 10)%nat
   /\ R_Score_column (rfm same_day) = Err Pandas.bin_edges_error
   /\ completes (F_Score_column (rfm same_day))
   /\ rfm_engine same_day = Err Pandas.bin_edges_error)
  /\ (Forall clean_record same_spend
      /\ (10 <= length (distinct_customers same_spend))%nat
      /\ Forall (fun x => (0 < Rfm.Monetary x)%Q) (rfm same_spend)
      /\ (length (Pandas.unique (monetary_values (rfm same_spend))) < 10)%nat
      /\ completes (R_Score_column (rfm same_spend))
      /\ completes (F_Score_column (rfm same_spend))
      /\ M_Score_column (rfm same_spend) = Err Pandas.bin_edges_error
      /\ rfm_engine same_spend = Err Pandas.bin_edges_error)
  /\ (forall tbl, (2 <= length tbl)%nat -> completes (F_Score_column tbl))
  /\ (forall tbl c, (forall r, In r tbl -> Rfm.Recency r = c) ->
        R_Score_column tbl = Err Pandas.bin_edges_error)
  /\ (forall tbl c, (forall r, In r tbl -> (Rfm.Monetary r == c)%Q) ->
        M_Score_column tbl = Err Pandas.bin_edges_error).
Proof.
  split; [|split; [|split; [|split]]].
  - split; [apply Cleaner_clean_records|].
    split; [vm_compute; repeat constructor|].
    split; [apply Forall_forall; intros x Hx;
            now apply cleaned_monetary_positive with (df := same_day);
            [apply Cleaner_clean_records|]|].
    split; [vm_compute; repeat constructor|].
    split; [apply same_recency_aborts with (c := 1);
            intros r Hr; vm_compute in Hr;
            repeat (destruct Hr as [<- | Hr]; [reflexivity|]);
            contradiction|].
    split; [apply F_Score_column_completes; vm_compute; repeat constructor|].
    vm_compute. reflexivity.
  - split; [apply Cleaner_clean_records|].
    split; [vm_compute; repeat constructor|].
    split; [apply Forall_forall; intros x Hx;
            now apply cleaned_monetary_positive with (df := same_spend);
            [apply Cleaner_clean_records|]|].
    split; [vm_compute; repeat constructor|].
    split; [eexists; vm_compute; reflexivity|].
    split; [apply F_Score_column_completes; vm_compute; repeat constructor|].
    split; [apply same_monetary_aborts with (c := 50%Q);
            intros r Hr; vm_compute in Hr;
            repeat (destruct Hr as [<- | Hr]; [reflexivity|]);
            contradiction|].
    vm_compute. reflexivity.
  - apply F_Score_column_completes.
  - apply same_recency_aborts.
  - apply same_monetary_aborts.
Qed.

(** * Further properties of the pipeline *)

(** ** The Cleaner keeps what is valid and is idempotent *)

Lemma Qeq_bool_refl (a : Q) : Qeq_bool a a = true.
Proof.
  apply Qeq_bool_iff. reflexivity.
Qed.

Lemma option_eqb_refl {A : Type} (eqb : A -> A -> bool) (a : option A) :
  (forall x, eqb x x = true) -> option_eqb eqb a a = true.
Proof.
  intros H. destruct a; simpl; auto.
Qed.

Lemma row_eqb_refl (r : Row) : row_eqb r r = true.
Proof.
  unfold row_eqb.
  rewrite !String.eqb_refl, !Z.eqb_refl, Qeq_bool_refl.
  rewrite (option_eqb_refl String.eqb _ String.eqb_refl).
  rewrite (option_eqb_refl Z.eqb _ Z.eqb_refl). reflexivity.
Qed.

Lemma option_eqb_notna {A : Type} (eqb : A -> A -> bool) (a b : option A) :
  option_eqb eqb a b = true -> Pandas.notna a = Pandas.notna b.
Proof.
  destruct a, b; simpl; auto; discriminate.
Qed.

(** Exact duplicates pass or fail the filters of Step 3 together. *)
Lemma duplicate_rows_same_filters (r s : Row) :
  row_eqb r s = true ->
  Pandas.notna (CustomerID r) && Pandas.notna (Description r)
  = Pandas.notna (CustomerID s) && Pandas.notna (Description s)
  /\ Qlt_bool 0 (UnitPrice r) && (0 <? Quantity r)
     = Qlt_bool 0 (UnitPrice s) && (0 <? Quantity s).
Proof.
  unfold row_eqb. rewrite !andb_true_iff.
  intros ((((((_ & Hd) & Hq) & _) & Hp) & Hc) & _).
  apply option_eqb_notna in Hd, Hc. apply Z.eqb_eq in Hq.
  apply Qeq_bool_iff in Hp. rewrite Hd, Hc, Hq. split; auto.
  f_equal. unfold Qlt_bool. f_equal.
  destruct (Qle_bool (UnitPrice r) 0) eqn:E1,
           (Qle_bool (UnitPrice s) 0) eqn:E2; auto.
  - apply Qle_bool_iff in E1. rewrite Hp in E1.
    apply Qle_bool_iff in E1. congruence.
  - apply Qle_bool_iff in E2. rewrite <- Hp in E2.
    apply Qle_bool_iff in E2. congruence.
Qed.

Lemma drop_duplicates_from_covers (seen df : list Row) (r : Row) :
  In r df ->
  (exists s, In s seen /\ row_eqb r s = true)
  \/ (exists s, In s (Pandas.drop_duplicates_from seen df)
                /\ row_eqb r s = true).
Proof.
  revert seen. induction df as [|x df IH]; intros seen Hr; simpl in *.
  - contradiction.
  - destruct (existsb (row_eqb x) seen) eqn:Hx.
    + destruct Hr as [<- | Hr]; auto.
      left. apply existsb_exists in Hx. exact Hx.
    + destruct Hr as [<- | Hr].
      * right. exists x. split; [now left | apply row_eqb_refl].
      * destruct (IH (x :: seen) Hr) as [(s & [<- | Hs] & E) | (s & Hs & E)].
        -- right. exists x. split; [now left | exact E].
        -- left. eauto.
        -- right. exists s. split; [now right | exact E].
Qed.

Lemma drop_duplicates_from_incl (seen df : list Row) (r : Row) :
  In r (Pandas.drop_duplicates_from seen df) -> In r df.
Proof.
  revert seen. induction df as [|x df IH]; intros seen; simpl; auto.
  destruct (existsb (row_eqb x) seen).
  - intros H. right. eauto.
  - intros [<- | H]; [now left | right; eauto].
Qed.



(** X1: every row the Cleaner returns is a row of the raw frame, and a raw
    row that has a customer identifier, a description, a positive unit
    price and a positive quantity is returned, itself or an exact duplicate
    of it that came earlier. *)
Theorem Cleaner_sound_and_complete (raw : list Row) :
  (forall t, In t (Cleaner raw) -> In (row t) raw)
  /\ (forall r, In r raw ->
        CustomerID r <> None -> Description r <> None ->
        (0 < UnitPrice r)%Q -> 0 < Quantity r ->
        exists t, In t (Cleaner raw) /\ duplicate_rows r (row t)).
Proof.
  split.
  - intros t Ht. unfold Cleaner, step4 in Ht. apply in_map_iff in Ht.
    destruct Ht as (r & <- & Hr). simpl.
    unfold step3, positive_price_and_quantity,
      dropna_CustomerID_Description in Hr.
    apply filter_In in Hr. destruct Hr as [Hr _].
    apply filter_In in Hr. destruct Hr as [Hr _].
    eapply drop_duplicates_from_incl; eauto.
  - intros r Hr Hc Hd Hp Hq.
    destruct (drop_duplicates_from_covers [] raw r Hr)
      as [(s & [] & _) | (s & Hs & E)].
    destruct (duplicate_rows_same_filters r s E) as [Hna Hpos].
    exists (mkTxn s (inject_Z (Quantity s) * UnitPrice s)%Q).
    split; [|exact E].
    unfold Cleaner, step4. apply in_map_iff. exists s. split; auto.
    unfold step3, positive_price_and_quantity,
      dropna_CustomerID_Description.
    apply filter_In. split; [apply filter_In; split; [exact Hs|]|].
    + rewrite <- Hna.
      destruct (CustomerID r); [|congruence].
      destruct (Description r); [reflexivity | congruence].
    + rewrite <- Hpos. apply andb_true_iff. split.
      * now apply Qlt_bool_iff.
      * now apply Z.ltb_lt.
Qed.


(** ** The only failure of the engine *)

Lemma column_error_exact (x : list Q) (labels : list Z) (f : Q -> Z)
  (e : exception) :
  length labels = 10%nat ->
  (forall v, In v x ->
             Pandas.cut_label (decile_edges x) labels v = Some (f v)) ->
  (cats <- Pandas.qcut x 10 labels ;; Pandas.astype_int cats) = Err e ->
  e = Pandas.bin_edges_error /\ (x = [] \/ ~ NoDupA Qeq (decile_edges x)).
Proof.
  intros Hlab Hf H.
  destruct x as [|v x]; [inversion H; auto|].
  assert (Hdup : ~ NoDupA Qeq (decile_edges (v :: x))).
  { intros Hnd.
    rewrite (qcut_astype (v :: x) labels f) in H; auto; discriminate. }
  split; [|now right].
  unfold Pandas.qcut in H.
  change (Pandas.Series_quantile (v :: x) (Pandas.linspace01 10))
    with (Some (decile_edges (v :: x))) in H.
  unfold Pandas.bins_to_cuts in H.
  change (length (decile_edges (v :: x))) with 11%nat in H.
  destruct (Nat.ltb_spec (length (Pandas.unique (decile_edges (v :: x)))) 11)
    as [Hlt | Hge].
  - simpl in H. now inversion H.
  - exfalso. apply Hdup.
    apply (unique_from_full [] (decile_edges (v :: x))).
    pose proof (unique_from_length_le [] (decile_edges (v :: x))) as Hle.
    unfold Pandas.unique in Hge.
    change (length (decile_edges (v :: x))) with 11%nat in *. lia.
Qed.

Lemma score_error_exact (tbl : list Rfm.t) (e : exception) :
  score tbl = Err e -> e = Pandas.bin_edges_error.
Proof.
  unfold score, R_Score_column, F_Score_column, M_Score_column. intros H.
  destruct (cats <- Pandas.qcut (recency_values tbl) 10 R_labels;;
            Pandas.astype_int cats) as [R|e1] eqn:ER.
  2:{ simpl in H. inversion H. subst.
      eapply (column_error_exact _ R_labels
                (descending_score (decile_edges (recency_values tbl))));
        eauto.
      intros v Hv. apply cut_label_descending; [reflexivity|].
      now apply bin_id_bounds. }
  destruct (cats <- Pandas.qcut (rank_values tbl) 10 FM_labels;;
            Pandas.astype_int cats) as [F|e2] eqn:EF.
  2:{ simpl in H. inversion H. subst.
      eapply (column_error_exact _ FM_labels
                (ascending_score (decile_edges (rank_values tbl))));
        eauto.
      intros v Hv. apply cut_label_ascending; [reflexivity|].
      now apply bin_id_bounds. }
  destruct (cats <- Pandas.qcut (monetary_values tbl) 10 FM_labels;;
            Pandas.astype_int cats) as [M|e3] eqn:EM.
  2:{ simpl in H. inversion H. subst.
      eapply (column_error_exact _ FM_labels
                (ascending_score (decile_edges (monetary_values tbl))));
        eauto.
      intros v Hv. apply cut_label_ascending; [reflexivity|].
      now apply bin_id_bounds. }
  discriminate.
Qed.

Lemma forallb_false_exists {A : Type} (f : A -> bool) (l : list A) :
  forallb f l = false -> exists a, In a l /\ f a = false.
Proof.
  induction l as [|a l IH]; simpl; [discriminate|].
  destruct (f a) eqn:E; simpl.
  - intros H. destruct (IH H) as (b & Hb & Eb). exists b. auto.
  - intros _. exists a. auto.
Qed.

Lemma score_completes_columns (tbl : list Rfm.t) :
  completes (score tbl) ->
  completes (R_Score_column tbl) /\ completes (M_Score_column tbl).
Proof.
  intros (table & H). unfold score in H.
  destruct (R_Score_column tbl) as [R|]; [|discriminate].
  destruct (F_Score_column tbl) as [F|]; [|discriminate].
  destruct (M_Score_column tbl) as [M|]; [|discriminate].
  split; eexists; reflexivity.
Qed.

(** X3: the engine either returns a table or raises the ValueError that
    the bin edges must be unique; it never raises the errors of a wrong
    number of labels or of a NaN score.  It returns a table only when
    there are at least two customers, two of them with different
    recencies and two of them with different monetary values. *)
Theorem engine_outcomes (df : list Txn) :
  (completes (rfm_engine df) \/ rfm_engine df = Err Pandas.bin_edges_error)
  /\ (completes (rfm_engine df) ->
      (2 <= length (distinct_customers df))%nat
      /\ (exists x y, In x (rfm df) /\ In y (rfm df)
                      /\ Rfm.Recency x <> Rfm.Recency y)
      /\ (exists x y, In x (rfm df) /\ In y (rfm df)
                      /\ ~ (Rfm.Monetary x == Rfm.Monetary y)%Q)).
Proof.
  split.
  - destruct (rfm_engine df) as [table|e] eqn:E.
    + left. now exists table.
    + right. apply score_error_exact in E. now subst.
  - intros Hrun. pose proof Hrun as (table & Htable).
    pose proof (engine_needs_two_customers df table Htable) as Htwo.
    destruct (score_completes_columns (rfm df) Hrun) as [HR HM].
    split; [now rewrite <- rfm_length|].
    destruct (rfm df) as [|x tbl] eqn:Etbl; [simpl in Htwo; lia|].
    split.
    + destruct (forallb (fun r => Rfm.Recency r =? Rfm.Recency x)
                        (x :: tbl)) eqn:Eall.
      * exfalso. destruct HR as (R & HR).
        rewrite (same_recency_aborts (x :: tbl) (Rfm.Recency x)) in HR;
          [discriminate|].
        intros r Hr. rewrite forallb_forall in Eall.
        now apply Z.eqb_eq, Eall.
      * apply forallb_false_exists in Eall. destruct Eall as (y & Hy & E).
        exists x, y. split; [now left|]. split; auto.
        apply Z.eqb_neq in E. congruence.
    + destruct (forallb (fun r => Qeq_bool (Rfm.Monetary r) (Rfm.Monetary x))
                        (x :: tbl)) eqn:Eall.
      * exfalso. destruct HM as (M & HM).
        rewrite (same_monetary_aborts (x :: tbl) (Rfm.Monetary x)) in HM;
          [discriminate|].
        intros r Hr. rewrite forallb_forall in Eall.
        now apply Qeq_bool_iff, Eall.
      * apply forallb_false_exists in Eall. destruct Eall as (y & Hy & E).
        exists x, y. split; [now left|]. split; auto.
        intros Heq. apply Qeq_sym in Heq. apply Qeq_bool_iff in Heq.
        congruence.
Qed.

(** ** The ranks are the numbers from 1 to n *)

Lemma count_lt_eq_length (v : Z) (s : list Z) :
  (Pandas.count_lt v s + Pandas.count_eq v s <= length s)%nat.
Proof.
  unfold Pandas.count_lt, Pandas.count_eq.
  induction s as [|u s IH]; simpl; auto.
  destruct (Z.ltb_spec u v), (Z.eqb_spec u v); simpl; lia.
Qed.

Lemma rank_at_range (s : list Z) (i : nat) :
  (i < length s)%nat -> 1 <= Pandas.rank_at s i <= Z.of_nat (length s).
Proof.
  intros Hi. unfold Pandas.rank_at.
  pose proof (count_lt_eq_length (nth i s 0) s).
  pose proof (count_eq_firstn_lt (nth i s 0) s i Hi eq_refl). lia.
Qed.

Lemma rank_first_seq (s : list Z) :
  Permutation (Pandas.rank_first s) (map Z.of_nat (seq 1 (length s))).
Proof.
  apply NoDup_Permutation_bis.
  - apply NoDup_nth with (d := 0). intros i j Hi Hj E.
    rewrite rank_first_length in Hi, Hj.
    rewrite !rank_first_nth in E by auto.
    destruct (Nat.eq_dec i j) as [|Hne]; auto.
    exfalso. revert E. now apply rank_at_ne.
  - now rewrite length_map, length_seq, rank_first_length.
  - intros r Hr. destruct (In_nth _ _ 0 Hr) as (i & Hi & <-).
    rewrite rank_first_length in Hi. rewrite rank_first_nth by auto.
    pose proof (rank_at_range s i Hi) as Hrange.
    apply in_map_iff. exists (Z.to_nat (Pandas.rank_at s i)).
    split; [lia|]. apply in_seq. lia.
Qed.

(** X4: [rank(method='first')] numbers the rows from 1 to n: its values
    are a permutation of 1, ..., n, and a row with a smaller value, or with
    an equal value at an earlier position, has the smaller rank. *)
Theorem rank_first_permutation (s : list Z) :
  Permutation (Pandas.rank_first s) (map Z.of_nat (seq 1 (length s)))
  /\ forall i j, (i < length s)%nat -> (j < length s)%nat ->
       (nth i s 0 < nth j s 0 \/ (nth i s 0 = nth j s 0 /\ (i < j)%nat)) ->
       nth i (Pandas.rank_first s) 0 < nth j (Pandas.rank_first s) 0.
Proof.
  split.
  - apply rank_first_seq.
  - intros i j Hi Hj H. rewrite !rank_first_nth by auto.
    now apply rank_at_lt.
Qed.

(** ** The scores 1 and 10 are always assigned *)







(** ** Bounds on the metrics *)

Lemma maximum_perm_le (l l' : list Z) :
  l <> [] -> (forall v, In v l -> In v l') -> maximum l <= maximum l'.
Proof.
  intros Hne Hincl.
  destruct (maximum_spec l Hne) as [Hin _].
  assert (Hne' : l' <> []).
  { intros E. specialize (Hincl _ Hin). rewrite E in Hincl. contradiction. }
  destruct (maximum_spec l' Hne') as [_ Hle].
  rewrite Forall_forall in Hle. auto.
Qed.

(** X6: on a frame whose rows all have a customer identifier, every
    recency is at least 1 and, unless the frame is empty, the recency 1 is
    reached: by a customer of the latest invoice.  Every frequency is at
    least 1 and at most the number of rows of the customer. *)
Theorem metric_bounds (df : list Txn) :
  Forall (fun t : Txn => CustomerID t <> None) df ->
  (forall x, In x (rfm df) ->
     1 <= Rfm.Recency x
     /\ 1 <= Rfm.Frequency x
        <= Z.of_nat (length (rows_of (Rfm.CustomerID x) df)))
  /\ (df <> [] -> exists x, In x (rfm df) /\ Rfm.Recency x = 1).
Proof.
  intros Hall. split.
  - intros x Hx.
    destruct (rfm_row_assoc df x Hx) as (Hr & Hf & _).
    assert (Hc : In (Some (Rfm.CustomerID x)) (customer_ids df))
      by (apply rfm_customers_In, in_map, Hx).
    apply recency_df_spec in Hr. apply frequency_df_spec in Hf.
    split.
    + rewrite Hr. now apply spec_recency_positive.
    + rewrite Hf. unfold spec_frequency.
      pose proof (rows_of_nonempty _ _ Hc) as Hne.
      set (invs := map (fun t : Txn => InvoiceNo t)
                       (rows_of (Rfm.CustomerID x) df)).
      assert (Hlen : length invs = length (rows_of (Rfm.CustomerID x) df))
        by apply length_map.
      assert (Hle : (length (nodup string_dec invs) <= length invs)%nat).
      { apply NoDup_incl_length; [apply NoDup_nodup|].
        intros v Hv. now apply nodup_In in Hv. }
      assert (Hpos : (1 <= length (nodup string_dec invs))%nat).
      { destruct invs as [|v invs'] eqn:E.
        - destruct (rows_of (Rfm.CustomerID x) df);
            [congruence | discriminate].
        - assert (Hin : In v (nodup string_dec (v :: invs')))
            by (apply nodup_In; now left).
          destruct (nodup string_dec (v :: invs')); [contradiction|].
          simpl. lia. }
      lia.
  - intros Hne.
    set (all := map (fun t : Txn => InvoiceDate t) df).
    assert (Hall' : all <> [])
      by (subst all; destruct df; [congruence | discriminate]).
    destruct (maximum_spec all Hall') as [Hin Hmax].
    subst all. apply in_map_iff in Hin. destruct Hin as (t & Et & Ht).
    rewrite Forall_forall in Hall. pose proof (Hall t Ht) as Hc.
    destruct (CustomerID t) as [c|] eqn:Ec; [|congruence].
    assert (Hcin : In (Some c) (customer_ids df)).
    { unfold customer_ids. apply in_map_iff. exists t. auto. }
    apply rfm_customers_In in Hcin. apply in_map_iff in Hcin.
    destruct Hcin as (x & Ex & Hx). exists x. split; auto.
    destruct (rfm_row_assoc df x Hx) as (Hr & _).
    apply recency_df_spec in Hr. rewrite Hr, Ex.
    unfold spec_recency, spec_reference_date.
    set (own := map (fun t : Txn => InvoiceDate t) (rows_of c df)).
    set (all := map (fun t : Txn => InvoiceDate t) df) in *.
    assert (Hown : In (InvoiceDate t) own).
    { subst own. apply in_map_iff. exists t. split; auto.
      apply rows_of_In. auto. }
    assert (Hown_ne : own <> [])
      by (intros E; rewrite E in Hown; contradiction).
    assert (H1 : maximum own <= maximum all).
    { apply maximum_perm_le; auto. subst own all. intros v Hv.
      apply in_map_iff in Hv. destruct Hv as (t' & <- & Ht').
      apply rows_of_In in Ht'. apply in_map_iff. exists t'. tauto. }
    assert (H2 : maximum all <= maximum own).
    { destruct (maximum_spec own Hown_ne) as [_ Hle].
      rewrite Forall_forall in Hle. rewrite <- Et. auto. }
    replace (maximum own) with (maximum all) by lia.
    replace (maximum all + Timedelta_days 1 - maximum all)
      with (Timedelta_days 1) by lia.
    unfold Timedelta_days. reflexivity.
Qed.

Lemma two_invoices_metric_bounds :
  Forall (fun t : Txn => CustomerID t <> None) two_invoices
  /\ exists x, In x (rfm two_invoices) /\ Rfm.Recency x = 1.
Proof.
  assert (H : Forall (fun t : Txn => CustomerID t <> None) two_invoices).
  { eapply Forall_impl; [|apply Cleaner_clean_records].
    intros t Ht. apply Ht. }
  split; [exact H|].
  apply (proj2 (metric_bounds two_invoices H)).
  vm_compute. discriminate.
Defined.

(** ** The composite code determines the scores *)

(** X7: two triples of scores between 1 and 10 with the same composite
    code are the same triple: the concatenation line 163 builds can be
    read back, although its width varies from 3 to 6 characters. *)
Theorem RFM_Score_injective (r f m r' f' m' : Z) :
  1 <= r <= 10 -> 1 <= f <= 10 -> 1 <= m <= 10 ->
  1 <= r' <= 10 -> 1 <= f' <= 10 -> 1 <= m' <= 10 ->
  RFM_Score_of r f m = RFM_Score_of r' f' m' ->
  r = r' /\ f = f' /\ m = m'.
Proof.
  intros Hr Hf Hm Hr' Hf' Hm' E.
  set (scores := [1; 2; 3; 4; 5; 6; 7; 8; 9; 10]).
  set (triples := flat_map (fun a => flat_map (fun b =>
                    map (fun c => (a, b, c)) scores) scores) scores).
  assert (Hall : forallb (fun t => forallb (fun t' =>
            let '(a, b, c) := t in let '(a', b', c') := t' in
            implb (String.eqb (RFM_Score_of a b c) (RFM_Score_of a' b' c'))
                  ((a =? a') && (b =? b') && (c =? c')))
            triples) triples = true) by (vm_compute; reflexivity).
  assert (Hin : forall a b c, 1 <= a <= 10 -> 1 <= b <= 10 -> 1 <= c <= 10 ->
                  In (a, b, c) triples).
  { intros a b c Ha Hb Hc. unfold triples.
    assert (Hs : forall v, 1 <= v <= 10 -> In v scores)
      by (intros v Hv; unfold scores; simpl; lia).
    apply in_flat_map. exists a. split; auto.
    apply in_flat_map. exists b. split; auto.
    apply in_map_iff. exists c. split; auto. }
  rewrite forallb_forall in Hall.
  specialize (Hall _ (Hin r f m Hr Hf Hm)).
  rewrite forallb_forall in Hall.
  specialize (Hall _ (Hin r' f' m' Hr' Hf' Hm')).
  simpl in Hall. rewrite E, String.eqb_refl in Hall. simpl in Hall.
  rewrite !andb_true_iff, !Z.eqb_eq in Hall. tauto.
Qed.

Lemma RFM_Score_injective_sample : 10 = 10 /\ 1 = 1 /\ 10 = 10.
Proof.
  apply (RFM_Score_injective 10 1 10 10 1 10); try lia. reflexivity.
Defined.

(** ** The metrics do not depend on the order of the rows *)

Lemma maximum_same_elements (l l' : list Z) :
  (forall v, In v l <-> In v l') -> maximum l = maximum l'.
Proof.
  intros H. destruct l as [|v l].
  - destruct l' as [|v' l']; auto.
    destruct (proj2 (H v')); simpl; auto.
  - assert (Hne' : l' <> [])
      by (intros E; subst; apply (proj1 (H v)); simpl; auto).
    apply Z.le_antisymm; apply maximum_perm_le;
      try discriminate; auto; intros w Hw; now apply H.
Qed.

Lemma nodup_length_same_elements (l l' : list string) :
  (forall v, In v l <-> In v l') ->
  length (nodup string_dec l) = length (nodup string_dec l').
Proof.
  intros H. apply Permutation_length. apply NoDup_Permutation.
  - apply NoDup_nodup.
  - apply NoDup_nodup.
  - intros v. rewrite !nodup_In. apply H.
Qed.

Lemma rows_of_same_elements (df df' : list Txn) (c : Z) {V : Type}
  (X : Txn -> V) :
  Permutation df df' ->
  forall v, In v (map X (rows_of c df)) <-> In v (map X (rows_of c df')).
Proof.
  intros Hp v. rewrite !in_map_iff.
  split; intros (t & E & Ht); exists t; split; auto;
    apply rows_of_In; apply rows_of_In in Ht; destruct Ht as [Ht Hc];
    split; auto.
  - eapply Permutation_in; eauto.
  - eapply Permutation_in; [symmetry|]; eauto.
Qed.

Lemma rfm_recency_frequency_columns (df : list Txn) :
  map Rfm.Recency (rfm df)
  = map (spec_recency df) (map Rfm.CustomerID (rfm df))
  /\ map Rfm.Frequency (rfm df)
     = map (spec_frequency df) (map Rfm.CustomerID (rfm df)).
Proof.
  rewrite !map_map. split; apply map_ext_in; intros x Hx;
    destruct (rfm_row_assoc df x Hx) as (Hr & Hf & _).
  - now apply recency_df_spec.
  - now apply frequency_df_spec.
Qed.

(** X8: the customers of the metrics table come in ascending order of
    identifier, and the customers, their recencies and their frequencies do
    not depend on the order in which the rows of the frame are listed. *)
Theorem rfm_row_order_independent (df df' : list Txn) :
  Permutation df df' ->
  increasing (map Rfm.CustomerID (rfm df))
  /\ map Rfm.CustomerID (rfm df) = map Rfm.CustomerID (rfm df')
  /\ map Rfm.Recency (rfm df) = map Rfm.Recency (rfm df')
  /\ map Rfm.Frequency (rfm df) = map Rfm.Frequency (rfm df').
Proof.
  intros Hp.
  assert (Hk : map Rfm.CustomerID (rfm df) = map Rfm.CustomerID (rfm df')).
  { apply increasing_ext; try apply rfm_customers_increasing.
    intros c. rewrite !rfm_customers_In. unfold customer_ids.
    split; apply Permutation_in; apply Permutation_map; auto.
    now symmetry. }
  destruct (rfm_recency_frequency_columns df) as [HR HF].
  destruct (rfm_recency_frequency_columns df') as [HR' HF'].
  split; [apply rfm_customers_increasing|]. split; [exact Hk|].
  rewrite HR, HF, HR', HF', <- Hk.
  split; apply map_ext; intros c.
  - unfold spec_recency, spec_reference_date.
    rewrite (maximum_same_elements
               (map (fun t : Txn => InvoiceDate t) df)
               (map (fun t : Txn => InvoiceDate t) df')).
    + rewrite (maximum_same_elements
                 (map (fun t : Txn => InvoiceDate t) (rows_of c df))
                 (map (fun t : Txn => InvoiceDate t) (rows_of c df'))); auto.
      now apply rows_of_same_elements.
    + intros v. split; apply Permutation_in; apply Permutation_map; auto.
      now symmetry.
  - unfold spec_frequency. f_equal.
    apply nodup_length_same_elements.
    now apply rows_of_same_elements.
Qed.

Lemma two_invoices_reversed :
  map Rfm.Recency (rfm two_invoices) = map Rfm.Recency (rfm (rev two_invoices))
  /\ map Rfm.Frequency (rfm two_invoices)
     = map Rfm.Frequency (rfm (rev two_invoices)).
Proof.
  destruct (rfm_row_order_independent two_invoices (rev two_invoices)
              (Permutation_rev two_invoices)) as (_ & _ & HR & HF).
  split; assumption.
Defined.

(** ** The frequency score as a function of the rank *)






(** ** Group-by over keys of any type *)

Section GroupByKeyFacts.
Context {K : Type}.
Variable eqb : K -> K -> bool.
Variable leb : K -> K -> bool.
Hypothesis eqb_eq : forall a b, eqb a b = true <-> a = b.

Lemma insert_key_perm (k : K) (ks : list K) :
  Permutation (insert_key leb k ks) (k :: ks).
Proof.
  induction ks as [|h ks IH]; simpl; auto.
  destruct (leb k h); auto. rewrite IH. apply perm_swap.
Qed.

Lemma sort_keys_perm (ks : list K) : Permutation (sort_keys leb ks) ks.
Proof.
  induction ks as [|k ks IH]; simpl; auto.
  rewrite insert_key_perm. now constructor.
Qed.

Lemma existsb_eqb_In (k : K) (seen : list K) :
  existsb (eqb k) seen = true <-> In k seen.
Proof.
  rewrite existsb_exists. split.
  - intros (s & Hs & E). apply eqb_eq in E. now subst.
  - intros H. exists k. split; auto. now apply eqb_eq.
Qed.

Lemma unique_keys_from_In (seen ks : list K) (k : K) :
  In k (unique_keys_from eqb seen ks) <-> In k ks /\ ~ In k seen.
Proof.
  revert seen. induction ks as [|h ks IH]; intros seen; simpl.
  - tauto.
  - destruct (existsb (eqb h) seen) eqn:E.
    + apply existsb_eqb_In in E. rewrite IH.
      split; [tauto|]. intros [[<- | H] Hn]; tauto.
    + assert (Hh : ~ In h seen).
      { intros Hin. apply existsb_eqb_In in Hin. congruence. }
      simpl. rewrite IH. simpl.
      split.
      * intros [<- | [H Hn]]; tauto.
      * intros [[<- | H] Hn]; auto.
        destruct (existsb (eqb k) [h]) eqn:E'.
        -- apply existsb_eqb_In in E'. destruct E' as [-> | []]. auto.
        -- right. split; auto. intros [-> | Hs]; auto.
           assert (existsb (eqb k) [k] = true)
             by (apply existsb_eqb_In; now left).
           congruence.
Qed.

Lemma unique_keys_from_NoDup (seen ks : list K) :
  NoDup (unique_keys_from eqb seen ks).
Proof.
  revert seen. induction ks as [|h ks IH]; intros seen; simpl.
  - constructor.
  - destruct (existsb (eqb h) seen); auto.
    constructor; auto. rewrite unique_keys_from_In. simpl. tauto.
Qed.

Lemma present_keys_In (rows : list (option K * Q)) (k : K) :
  In k (present_keys rows) <-> In (Some k) (map fst rows).
Proof.
  induction rows as [|[[h|] v] rows IH]; simpl.
  - tauto.
  - rewrite IH. split; intros [E | H]; auto.
    + left. now subst.
    + left. now inversion E.
  - rewrite IH. split; auto. intros [E | H]; [discriminate | auto].
Qed.

Lemma group_keys_NoDup (rows : list (option K * Q)) :
  NoDup (group_keys eqb leb rows).
Proof.
  unfold group_keys.
  apply (Permutation_NoDup (Permutation_sym (sort_keys_perm _))).
  apply unique_keys_from_NoDup.
Qed.

Lemma group_keys_In (rows : list (option K * Q)) (k : K) :
  In k (group_keys eqb leb rows) <-> In (Some k) (map fst rows).
Proof.
  unfold group_keys. rewrite <- present_keys_In.
  split; intros H.
  - apply (Permutation_in _ (sort_keys_perm _)) in H.
    apply unique_keys_from_In in H. tauto.
  - apply (Permutation_in _ (Permutation_sym (sort_keys_perm _))).
    apply unique_keys_from_In. simpl. tauto.
Qed.

Lemma fold_left_Qplus_0 (vs : list Q) : (fold_left Qplus vs 0 == Qsum vs)%Q.
Proof.
  rewrite fold_left_Qplus. ring.
Qed.

Lemma groupby_sum_by_keys (rows : list (option K * Q)) :
  map fst (groupby_sum_by eqb leb rows) = group_keys eqb leb rows.
Proof.
  unfold groupby_sum_by. rewrite map_map. simpl. apply map_id.
Qed.

Lemma groupby_sum_by_In (rows : list (option K * Q)) (k : K) (v : Q) :
  In (k, v) (groupby_sum_by eqb leb rows) ->
  In (Some k) (map fst rows) /\ (v == Qsum (group_values eqb k rows))%Q.
Proof.
  unfold groupby_sum_by. intros H. apply in_map_iff in H.
  destruct H as (j & E & Hj). inversion E. subst.
  split; [now apply group_keys_In | apply fold_left_Qplus_0].
Qed.

(** With a total and transitive order the keys come out sorted. *)
Hypothesis leb_total : forall a b, leb a b = true \/ leb b a = true.
Hypothesis leb_trans :
  forall a b c, leb a b = true -> leb b c = true -> leb a c = true.

Lemma insert_key_In (k j : K) (ks : list K) :
  In j (insert_key leb k ks) <-> j = k \/ In j ks.
Proof.
  split; intros H.
  - apply (Permutation_in _ (insert_key_perm k ks)) in H.
    destruct H; auto.
  - apply (Permutation_in _ (Permutation_sym (insert_key_perm k ks))).
    destruct H; [left | right]; auto.
Qed.

Lemma insert_key_sorted (k : K) (ks : list K) :
  StronglySorted (fun a b => leb a b = true) ks ->
  StronglySorted (fun a b => leb a b = true) (insert_key leb k ks).
Proof.
  induction 1 as [|h ks Hs IH Hh]; simpl.
  - repeat constructor.
  - destruct (leb k h) eqn:E.
    + constructor; [constructor; auto|]. constructor; auto.
      eapply Forall_impl; [|exact Hh]. simpl. intros c Hc.
      eapply leb_trans; eauto.
    + constructor; auto. apply Forall_forall. intros c Hc.
      apply insert_key_In in Hc. destruct Hc as [-> | Hc].
      * destruct (leb_total k h); congruence.
      * rewrite Forall_forall in Hh. auto.
Qed.

Lemma sort_keys_sorted (ks : list K) :
  StronglySorted (fun a b => leb a b = true) (sort_keys leb ks).
Proof.
  induction ks as [|k ks IH]; simpl.
  - constructor.
  - now apply insert_key_sorted.
Qed.
End GroupByKeyFacts.

(** ** Sorting a report by value *)

Lemma insert_descending_perm {K : Type} (x : K * Q) (l : list (K * Q)) :
  Permutation (insert_descending x l) (x :: l).
Proof.
  induction l as [|y l IH]; simpl; auto.
  destruct (Qle_bool (snd y) (snd x)); auto.
  rewrite IH. apply perm_swap.
Qed.

Lemma insert_descending_sorted {K : Type} (x : K * Q) (l : list (K * Q)) :
  StronglySorted (fun a b => (snd b <= snd a)%Q) l ->
  StronglySorted (fun a b => (snd b <= snd a)%Q) (insert_descending x l).
Proof.
  induction 1 as [|y l Hs IH Hy]; simpl.
  - repeat constructor.
  - destruct (Qle_bool (snd y) (snd x)) eqn:E.
    + apply Qle_bool_iff in E.
      constructor; [constructor; auto|]. constructor; auto.
      eapply Forall_impl; [|exact Hy]. simpl. intros c Hc. lra.
    + assert (Hlt : (snd x < snd y)%Q).
      { apply Qnot_le_lt. intros Hle. apply Qle_bool_iff in Hle. congruence. }
      constructor; auto. apply Forall_forall. intros c Hc.
      apply (Permutation_in _ (insert_descending_perm x l)) in Hc.
      destruct Hc as [<- | Hc]; [lra|].
      rewrite Forall_forall in Hy. auto.
Qed.

Lemma sort_values_descending_sorts {K : Type} :
  sorts_descending (@sort_values_descending K).
Proof.
  intros l. split; induction l as [|x l IH]; simpl.
  - constructor.
  - rewrite insert_descending_perm. now constructor.
  - constructor.
  - now apply insert_descending_sorted.
Qed.

(** In a list sorted highest first, nothing after the first [n] rows
    exceeds one of them. *)
Lemma head_dominates {K : Type} (n : nat) (l : list (K * Q))
  (a b : K * Q) :
  StronglySorted (fun a b => (snd b <= snd a)%Q) l ->
  In a (firstn n l) -> In b (skipn n l) -> (snd b <= snd a)%Q.
Proof.
  intros Hs. revert n. induction Hs as [|x l Hs IH Hx]; intros n Ha Hb.
  - rewrite firstn_nil in Ha. contradiction.
  - destruct n as [|n]; simpl in Ha, Hb; [contradiction|].
    destruct Ha as [<- | Ha].
    + rewrite Forall_forall in Hx. apply Hx.
      rewrite <- (firstn_skipn n l). apply in_or_app. now right.
    + eapply IH; eauto.
Qed.

Lemma head_or_tail {A : Type} (n : nat) (l : list A) (a : A) :
  In a l -> In a (firstn n l) \/ In a (skipn n l).
Proof.
  intros H. rewrite <- (firstn_skipn n l) in H.
  now apply in_app_or in H.
Qed.

Lemma NoDup_firstn {A : Type} (n : nat) (l : list A) :
  NoDup l -> NoDup (firstn n l).
Proof.
  intros H. rewrite <- (firstn_skipn n l) in H.
  now apply NoDup_app_remove_r in H.
Qed.

Lemma In_firstn {A : Type} (n : nat) (l : list A) (a : A) :
  In a (firstn n l) -> In a l.
Proof.
  intros H. rewrite <- (firstn_skipn n l). apply in_or_app. now left.
Qed.

(** ** The revenue reports *)

Lemma group_values_column {K : Type} (eqb : K -> K -> bool) (X : Txn -> K)
  (k : K) (df : list Txn) :
  group_values eqb k (map (fun t : Txn => (Some (X t), TotalPrice t)) df)
  = map TotalPrice (filter (fun t : Txn => eqb (X t) k) df).
Proof.
  unfold group_values. induction df as [|t df IH]; simpl; auto.
  destruct (eqb (X t) k); simpl; now rewrite IH.
Qed.

Lemma group_values_optional_column {K : Type} (eqb : K -> K -> bool)
  (X : Txn -> option K) (k : K) (df : list Txn) :
  group_values eqb k (map (fun t : Txn => (X t, TotalPrice t)) df)
  = map TotalPrice
        (filter (fun t : Txn => option_eqb eqb (X t) (Some k)) df).
Proof.
  unfold group_values. induction df as [|t df IH]; simpl; auto.
  destruct (option_eqb eqb (X t) (Some k)); simpl; now rewrite IH.
Qed.

Lemma keyed_rows_In {K : Type} (X : Txn -> option K) (k : K)
  (df : list Txn) :
  In (Some k) (map fst (map (fun t : Txn => (X t, TotalPrice t)) df))
  <-> exists t : Txn, In t df /\ X t = Some k.
Proof.
  rewrite map_map. simpl. rewrite in_map_iff.
  split; intros (t & H1 & H2); exists t; auto.
Qed.

(** X10: the country report has one row for each country of the frame,
    holding the sum of the country's line totals; and no country outside
    the five shown has more revenue than one of the five. *)
Theorem country_revenue_report
  (sort_values : list (string * Q) -> list (string * Q)) (df : list Txn) :
  sorts_descending sort_values ->
  NoDup (map fst (country_revenue sort_values df))
  /\ (forall c, In c (map fst (country_revenue sort_values df))
                <-> exists t : Txn, In t df /\ Country t = c)
  /\ (forall c v, In (c, v) (country_revenue sort_values df) ->
        (v == Qsum (map TotalPrice
                      (filter (fun t : Txn => String.eqb (Country t) c) df)))%Q)
  /\ (forall a b, In a (top5_countries sort_values df) ->
        In b (country_revenue sort_values df) ->
        ~ In b (top5_countries sort_values df) -> (snd b <= snd a)%Q).
Proof.
  intros Hsort. unfold top5_countries, country_revenue.
  set (rows := map (fun t : Txn => (Some (Country t), TotalPrice t)) df).
  destruct (Hsort (groupby_sum_by String.eqb String.leb rows))
    as [Hperm Hsorted].
  assert (Hkeys : Permutation
            (map fst (sort_values (groupby_sum_by String.eqb String.leb rows)))
            (group_keys String.eqb String.leb rows)).
  { rewrite <- groupby_sum_by_keys. now apply Permutation_map. }
  split; [|split; [|split]].
  - apply (Permutation_NoDup (Permutation_sym Hkeys)).
    apply group_keys_NoDup, String.eqb_eq.
  - intros c.
    assert (Hc : In c (group_keys String.eqb String.leb rows)
                 <-> exists t : Txn, In t df /\ Country t = c).
    { rewrite (group_keys_In String.eqb String.leb String.eqb_eq).
      subst rows.
      rewrite (keyed_rows_In (fun t : Txn => Some (Country t))).
      split; intros (t & H1 & H2); exists t; split; congruence. }
    rewrite <- Hc. split; intros H.
    + now apply (Permutation_in _ Hkeys).
    + now apply (Permutation_in _ (Permutation_sym Hkeys)).
  - intros c v H. apply (Permutation_in _ Hperm) in H.
    apply (groupby_sum_by_In _ _ String.eqb_eq) in H. destruct H as [_ H].
    rewrite H. subst rows. now rewrite group_values_column.
  - intros a b Ha Hb Hnb.
    destruct (head_or_tail 5 _ b Hb) as [H | H]; [contradiction|].
    eapply head_dominates; eauto.
Qed.

Lemma two_countries_report :
  NoDup (map fst (country_revenue sort_values_descending two_countries))
  /\ forall c, In c (map fst (country_revenue sort_values_descending
                                              two_countries))
               <-> exists t : Txn, In t two_countries /\ Country t = c.
Proof.
  destruct (country_revenue_report sort_values_descending two_countries
              sort_values_descending_sorts) as (H1 & H2 & _).
  split; assumption.
Defined.

Lemma firstn_length_min {A : Type} (n : nat) (l : list A) :
  length (firstn n l) = Nat.min n (length l).
Proof.
  revert l. induction n as [|n IH]; intros [|a l]; simpl; auto.
Qed.

(** X11: the product report shows ten products, or all of them when the
    frame has fewer; each row shown is a product of the frame with the sum
    of its line totals; and no product left out has more revenue than one
    shown. *)
Theorem top_products_report
  (sort_values : list (string * Q) -> list (string * Q)) (df : list Txn) :
  sorts_descending sort_values ->
  length (top_products sort_values df)
  = Nat.min 10 (length (product_revenue df))
  /\ NoDup (map fst (top_products sort_values df))
  /\ (forall p, In p (map fst (product_revenue df))
                <-> exists t : Txn, In t df /\ Description t = Some p)
  /\ (forall p v, In (p, v) (top_products sort_values df) ->
        (exists t : Txn, In t df /\ Description t = Some p)
        /\ (v == Qsum (map TotalPrice
                         (filter (fun t : Txn =>
                                    option_eqb String.eqb (Description t)
                                               (Some p)) df)))%Q)
  /\ (forall a b, In a (top_products sort_values df) ->
        In b (product_revenue df) ->
        ~ In b (top_products sort_values df) -> (snd b <= snd a)%Q).
Proof.
  intros Hsort. unfold top_products.
  destruct (Hsort (product_revenue df)) as [Hperm Hsorted].
  assert (Hkeys : forall p, In p (map fst (product_revenue df))
                  <-> exists t : Txn, In t df /\ Description t = Some p).
  { intros p. unfold product_revenue. rewrite groupby_sum_by_keys.
    rewrite (group_keys_In String.eqb String.leb String.eqb_eq).
    apply (keyed_rows_In (fun t : Txn => Description t)). }
  split; [|split; [|split; [|split]]].
  - rewrite firstn_length_min.
    now rewrite (Permutation_length Hperm).
  - rewrite <- firstn_map. apply NoDup_firstn.
    apply (Permutation_NoDup
             (Permutation_sym (Permutation_map fst Hperm))).
    unfold product_revenue. rewrite groupby_sum_by_keys.
    apply group_keys_NoDup, String.eqb_eq.
  - exact Hkeys.
  - intros p v H. apply In_firstn in H.
    apply (Permutation_in _ Hperm) in H. split.
    + apply Hkeys. apply in_map_iff. exists (p, v). auto.
    + unfold product_revenue in H.
      apply (groupby_sum_by_In _ _ String.eqb_eq) in H. destruct H as [_ H].
      rewrite H. now rewrite group_values_optional_column.
  - intros a b Ha Hb Hnb.
    apply (Permutation_in _ (Permutation_sym Hperm)) in Hb.
    destruct (head_or_tail 10 _ b Hb) as [H | H]; [contradiction|].
    eapply head_dominates; eauto.
Qed.

Lemma two_countries_top_products :
  length (top_products sort_values_descending two_countries)
  = Nat.min 10 (length (product_revenue two_countries)).
Proof.
  destruct (top_products_report sort_values_descending two_countries
              sort_values_descending_sorts) as (H & _).
  exact H.
Defined.

(** ** Months *)

Lemma month_eqb_eq (a b : Z * Z) : month_eqb a b = true <-> a = b.
Proof.
  destruct a as [y m], b as [y' m']. unfold month_eqb. simpl.
  rewrite andb_true_iff, !Z.eqb_eq.
  split; [intros [-> ->]; reflexivity | intros E; inversion E; auto].
Qed.

Lemma month_leb_iff (a b : Z * Z) :
  month_leb a b = true
  <-> fst a < fst b \/ (fst a = fst b /\ snd a <= snd b).
Proof.
  unfold month_leb.
  rewrite orb_true_iff, andb_true_iff, Z.ltb_lt, Z.eqb_eq, Z.leb_le.
  tauto.
Qed.

Lemma month_leb_total (a b : Z * Z) :
  month_leb a b = true \/ month_leb b a = true.
Proof.
  rewrite !month_leb_iff. lia.
Qed.

Lemma month_leb_trans (a b c : Z * Z) :
  month_leb a b = true -> month_leb b c = true -> month_leb a c = true.
Proof.
  rewrite !month_leb_iff. lia.
Qed.

Lemma month_leb_refl (a : Z * Z) : month_leb a a = true.
Proof.
  rewrite month_leb_iff. lia.
Qed.

Lemma sorted_NoDup_strict {K : Type} (leb : K -> K -> bool) (l : list K) :
  StronglySorted (fun a b => leb a b = true) l -> NoDup l ->
  StronglySorted (fun a b => leb a b = true /\ a <> b) l.
Proof.
  induction 1 as [|x l Hs IH Hx]; intros Hnd.
  - constructor.
  - inversion_clear Hnd as [|? ? Hnin Hnd'].
    constructor; auto. rewrite Forall_forall in *.
    intros y Hy. split; auto. intros ->. contradiction.
Qed.

(** X12: the monthly report has one row for each month of the frame with
    a sale, in chronological order, holding the sum of the month's line
    totals. *)
Theorem monthly_revenue_report (df : list Txn) :
  StronglySorted
    (fun a b => fst a < fst b \/ (fst a = fst b /\ snd a < snd b))
    (map fst (monthly_revenue df))
  /\ (forall y m, In (y, m) (map fst (monthly_revenue df))
                  <-> exists t : Txn, In t df /\ Year t = y /\ Month t = m)
  /\ (forall y m v, In ((y, m), v) (monthly_revenue df) ->
        (v == Qsum (map TotalPrice
                      (filter (fun t : Txn =>
                                 (Year t =? y) && (Month t =? m)) df)))%Q).
Proof.
  unfold monthly_revenue.
  set (rows := map (fun t : Txn => (Some (Year t, Month t), TotalPrice t)) df).
  split; [|split].
  - rewrite groupby_sum_by_keys.
    pose proof (sorted_NoDup_strict month_leb _
                  (sort_keys_sorted month_leb month_leb_total month_leb_trans
                     (unique_keys_from month_eqb [] (present_keys rows)))
                  (group_keys_NoDup month_eqb month_leb month_eqb_eq rows))
      as H.
    eapply StronglySorted_ind with (P := fun l =>
      StronglySorted
        (fun a b => fst a < fst b \/ (fst a = fst b /\ snd a < snd b)) l);
      [constructor | | exact H].
    intros a l _ Hl Ha. constructor; auto.
    eapply Forall_impl; [|exact Ha]. simpl. intros b [Hle Hne].
    apply month_leb_iff in Hle. destruct a as [y m], b as [y' m']. simpl in *.
    destruct Hle as [Hlt | [-> Hle]]; [now left | right].
    split; auto. assert (m <> m') by congruence. lia.
  - intros y m. rewrite groupby_sum_by_keys.
    rewrite (group_keys_In month_eqb month_leb month_eqb_eq). subst rows.
    rewrite (keyed_rows_In (fun t : Txn => Some (Year t, Month t))).
    split; intros (t & H1 & H2); exists t.
    + inversion H2. auto.
    + destruct H2 as [-> ->]. auto.
  - intros y m v H.
    apply (groupby_sum_by_In _ _ month_eqb_eq) in H. destruct H as [_ H].
    rewrite H. subst rows.
    now rewrite (group_values_column month_eqb
                   (fun t : Txn => (Year t, Month t))).
Qed.

(** ** The mean line total of a customer *)

Lemma mean_fold (vs : list Q) (a : Q) (n : Z) :
  snd (fold_left (fun (acc : Q * Z) (v : Q) =>
                    ((fst acc + v)%Q, snd acc + 1)) vs (a, n))
  = n + Z.of_nat (length vs)
  /\ (fst (fold_left (fun (acc : Q * Z) (v : Q) =>
                        ((fst acc + v)%Q, (snd acc + 1)%Z)) vs (a, n))
      == a + Qsum vs)%Q.
Proof.
  revert a n. induction vs as [|v vs IH]; intros a n.
  - simpl. split; [lia|]. change (Qsum []) with 0%Q. ring.
  - cbn [fold_left fst snd length]. destruct (IH (a + v)%Q (n + 1)) as [-> ->].
    split; [lia|]. rewrite Qsum_cons. ring.
Qed.

Lemma avg_revenue_keys (df : list Txn) :
  map fst (avg_revenue df) = map Rfm.CustomerID (rfm df).
Proof.
  unfold avg_revenue. rewrite map_map. cbn [fst].
  apply increasing_ext.
  - apply (groupby_agg_increasing (fun v : Q => (v, 1))).
  - apply rfm_customers_increasing.
  - intros c. rewrite rfm_customers_In.
    etransitivity; [apply (groupby_agg_keys_In (fun v : Q => (v, 1)))|].
    unfold customer_ids. rewrite map_map. simpl. tauto.
Qed.

Lemma avg_revenue_value (df : list Txn) (c : Z) (a : Q) :
  In (c, a) (avg_revenue df) ->
  rows_of c df <> []
  /\ (a == spec_monetary df c
           / inject_Z (Z.of_nat (length (rows_of c df))))%Q.
Proof.
  intros H.
  assert (Hc : In (Some c) (customer_ids df)).
  { apply rfm_customers_In. rewrite <- avg_revenue_keys.
    apply in_map_iff. exists (c, a). auto. }
  pose proof (rows_of_nonempty c df Hc) as Hrows. split; auto.
  assert (Hnd : NoDup (keys (avg_revenue df))).
  { unfold keys. rewrite avg_revenue_keys.
    apply increasing_NoDup, rfm_customers_increasing. }
  apply (assoc_In c a _ Hnd) in H.
  unfold avg_revenue in H.
  rewrite (assoc_map_values
             (fun s : Q * Z => (fst s / inject_Z (snd s))%Q)) in H.
  destruct (map TotalPrice (rows_of c df)) as [|v vs] eqn:E.
  { destruct (rows_of c df); [congruence | discriminate]. }
  rewrite (groupby_agg_assoc_cons _ _ _ c v vs) in H
    by (rewrite values_of_column; exact E).
  simpl in H. inversion H as [Ha]. clear H Ha.
  destruct (mean_fold vs v 1) as [-> ->].
  unfold spec_monetary. rewrite E, Qsum_cons.
  assert (Hlen : length (rows_of c df) = S (length vs)).
  { rewrite <- (length_map TotalPrice), E. reflexivity. }
  rewrite Hlen.
  replace (1 + Z.of_nat (length vs)) with (Z.of_nat (S (length vs))) by lia.
  reflexivity.
Qed.

(** X13: the report of mean line totals has the customers of the RFM
    table, in the same order; the mean of a customer is the customer's
    monetary value divided by the number of the customer's lines; on a
    cleaned frame every mean is positive. *)
Theorem avg_revenue_is_mean (df : list Txn) :
  map fst (avg_revenue df) = map Rfm.CustomerID (rfm df)
  /\ (forall x a, In x (rfm df) ->
        In (Rfm.CustomerID x, a) (avg_revenue df) ->
        rows_of (Rfm.CustomerID x) df <> []
        /\ (a == Rfm.Monetary x
                 / inject_Z (Z.of_nat
                               (length (rows_of (Rfm.CustomerID x) df))))%Q)
  /\ (Forall clean_record df ->
      forall c a, In (c, a) (avg_revenue df) -> (0 < a)%Q).
Proof.
  split; [apply avg_revenue_keys | split].
  - intros x a Hx Ha. apply avg_revenue_value in Ha.
    destruct Ha as [Hrows ->]. split; auto.
    destruct (rfm_row_assoc df x Hx) as (_ & _ & Hm).
    apply monetary_df_spec in Hm. now rewrite Hm.
  - intros Hclean c a Ha.
    assert (Hc : In c (map Rfm.CustomerID (rfm df))).
    { rewrite <- avg_revenue_keys. apply in_map_iff. exists (c, a). auto. }
    apply in_map_iff in Hc. destruct Hc as (x & <- & Hx).
    pose proof (cleaned_monetary_positive df x Hclean Hx) as Hpos.
    destruct (rfm_row_assoc df x Hx) as (_ & _ & Hm).
    apply monetary_df_spec in Hm.
    apply avg_revenue_value in Ha. destruct Ha as [Hrows ->].
    rewrite <- Hm.
    assert (Hn : (0 < inject_Z (Z.of_nat
                     (length (rows_of (Rfm.CustomerID x) df))))%Q).
    { change 0%Q with (inject_Z 0). rewrite <- Zlt_Qlt.
      destruct (rows_of (Rfm.CustomerID x) df); [congruence | simpl; lia]. }
    apply Qlt_shift_div_l; [exact Hn | rewrite Qmult_0_l; exact Hpos].
Qed.

(** ** The date columns *)

(** The parts of a day count [civil_from_days] works with: the 400-year
    era, the day of the era, the year of the era, the day of the year
    (years starting on 1 March) and the month counted from March. *)
Lemma civil_from_days_parts (z : Z) :
  exists era doe yoe doy mp,
    z + 719468 = era * 146097 + doe /\ 0 <= doe <= 146096
    /\ 0 <= yoe <= 399
    /\ doe = 365 * yoe + yoe / 4 - yoe / 100 + doy /\ 0 <= doy <= 365
    /\ mp = (5 * doy + 2) / 153 /\ 0 <= mp <= 11
    /\ era = (z + 719468) / 146097
    /\ yoe = (doe - doe / 1460 + doe / 36524 - doe / 146096) / 365
    /\ civil_from_days z
       = (if (if mp <? 10 then mp + 3 else mp - 9) <=? 2
          then yoe + era * 400 + 1 else yoe + era * 400,
          if mp <? 10 then mp + 3 else mp - 9,
          doy - (153 * mp + 2) / 5 + 1).
Proof.
  set (era := (z + 719468) / 146097).
  set (doe := z + 719468 - era * 146097).
  set (yoe := (doe - doe / 1460 + doe / 36524 - doe / 146096) / 365).
  set (doy := doe - (365 * yoe + yoe / 4 - yoe / 100)).
  exists era, doe, yoe, doy, ((5 * doy + 2) / 153).
  assert (Hdoe : 0 <= doe <= 146096) by (subst doe era; lia).
  assert (Hyoe : 0 <= yoe <= 399) by (subst yoe; lia).
  assert (Hdoy : 0 <= doy <= 365).
  { subst doy. generalize (eq_refl yoe). unfold yoe at 2.
    generalize yoe. clear -Hdoe. intros yoe E. lia. }
  repeat split; try lia; reflexivity.
Qed.

Lemma civil_from_days_inverse (z : Z) :
  days_from_civil (fst (fst (civil_from_days z)))
                  (snd (fst (civil_from_days z)))
                  (snd (civil_from_days z)) = z.
Proof.
  destruct (civil_from_days_parts z)
    as (era & doe & yoe & doy & mp & Hz & Hdoe & Hyoe & Hdoy & Hdoy' & Hmp
        & Hmp' & _ & _ & ->).
  cbn [fst snd]. unfold days_from_civil.
  destruct (mp <? 10) eqn:E10.
  - apply Z.ltb_lt in E10.
    replace (mp + 3 <=? 2) with false by (symmetry; apply Z.leb_gt; lia).
    replace (2 <? mp + 3) with true by (symmetry; apply Z.ltb_lt; lia).
    replace (mp + 3 - 3) with mp by lia.
    replace ((yoe + era * 400) / 400) with era by lia.
    replace (yoe + era * 400 - era * 400) with yoe by lia.
    lia.
  - apply Z.ltb_ge in E10.
    replace (mp - 9 <=? 2) with true by (symmetry; apply Z.leb_le; lia).
    replace (2 <? mp - 9) with false by (symmetry; apply Z.ltb_ge; lia).
    replace (mp - 9 + 9) with mp by lia.
    replace (yoe + era * 400 + 1 - 1) with (yoe + era * 400) by lia.
    replace ((yoe + era * 400) / 400) with era by lia.
    replace (yoe + era * 400 - era * 400) with yoe by lia.
    lia.
Qed.

Lemma civil_from_days_calendar (z : Z) :
  1 <= snd (fst (civil_from_days z)) <= 12
  /\ 1 <= snd (civil_from_days z) <= 31.
Proof.
  destruct (civil_from_days_parts z)
    as (era & doe & yoe & doy & mp & Hz & Hdoe & Hyoe & Hdoy & Hdoy' & Hmp
        & Hmp' & _ & _ & ->).
  cbn [fst snd]. split.
  - destruct (mp <? 10) eqn:E10; [apply Z.ltb_lt in E10 | apply Z.ltb_ge in E10];
      lia.
  - clear -Hmp Hdoy'. lia.
Qed.

Lemma year_of_era_monotone (a b : Z) :
  0 <= a <= b -> b <= 146096 ->
  (a - a / 1460 + a / 36524 - a / 146096) / 365
  <= (b - b / 1460 + b / 36524 - b / 146096) / 365.
Proof.
  intros Ha Hb. apply Z.div_le_mono; lia.
Qed.

Lemma month_of_day_monotone (z z' : Z) :
  z <= z' ->
  month_leb (fst (civil_from_days z)) (fst (civil_from_days z')) = true.
Proof.
  intros Hle.
  destruct (civil_from_days_parts z)
    as (era & doe & yoe & doy & mp & Hz & Hdoe & Hyoe & Hdoy & Hdoy' & Hmp
        & Hmp' & Hera & Hyoe' & ->).
  destruct (civil_from_days_parts z')
    as (era' & doe' & yoe' & doy' & mp' & Hz' & Hdoe' & Hyoe2 & Hdoy2
        & Hdoy2' & Hmp2 & Hmp2' & Hera' & Hyoe2' & ->).
  cbn [fst]. apply month_leb_iff. cbn [fst snd].
  assert (Hera_le : era <= era') by (subst era era'; apply Z.div_le_mono; lia).
  assert (Hlex : era < era'
                 \/ (era = era' /\ yoe < yoe')
                 \/ (era = era' /\ yoe = yoe' /\ mp <= mp')).
  { destruct (Z.eq_dec era era') as [E | Hne]; [|lia].
    right. assert (Hdd : doe <= doe') by lia.
    assert (Hyy : yoe <= yoe').
    { rewrite Hyoe', Hyoe2'. apply year_of_era_monotone; lia. }
    destruct (Z.eq_dec yoe yoe') as [E' | Hne']; [|lia].
    right. repeat split; auto.
    rewrite Hmp, Hmp2. apply Z.div_le_mono; lia. }
  clear Hz Hz' Hdoy Hdoy2 Hmp Hmp2 Hera Hera' Hyoe' Hyoe2' Hle Hera_le.
  destruct (mp <? 10) eqn:E; [apply Z.ltb_lt in E | apply Z.ltb_ge in E];
    destruct (mp' <? 10) eqn:E';
    [apply Z.ltb_lt in E' | apply Z.ltb_ge in E'
     | apply Z.ltb_lt in E' | apply Z.ltb_ge in E'];
    repeat match goal with
           | |- context [?a <=? 2] =>
               destruct (Z.leb_spec a 2)
           end; lia.
Qed.

Lemma day_of_timestamp (t : Z) :
  Timedelta_days (t / Timedelta_days 1) <= t
  < Timedelta_days (t / Timedelta_days 1) + Timedelta_days 1.
Proof.
  unfold Timedelta_days. lia.
Qed.

(** X14: the [Year] and [Month] columns name the month the invoice was
    made in: the month is one of 1 to 12, and the invoice date lies
    within some day 1 to 31 of that month of that year, from its midnight
    to the next. *)
Theorem Year_Month_name_the_date (t : Txn) :
  1 <= Month t <= 12
  /\ exists d, 1 <= d <= 31
       /\ Timestamp (Year t) (Month t) d <= InvoiceDate t
          < Timestamp (Year t) (Month t) d + Timedelta_days 1.
Proof.
  unfold Year, Month, Timestamp.
  pose proof (day_of_timestamp (InvoiceDate t)) as Hday.
  set (z := InvoiceDate t / Timedelta_days 1) in *.
  destruct (civil_from_days_calendar z) as [Hm Hd].
  split; auto.
  exists (snd (civil_from_days z)). split; auto.
  now rewrite civil_from_days_inverse.
Qed.

(** X15: the order of the [(Year, Month)] keys is the order of time: of
    two invoice dates the earlier has the smaller or the same pair of
    year and month. *)
Theorem months_follow_time (t t' : Txn) :
  InvoiceDate t <= InvoiceDate t' ->
  month_leb (Year t, Month t) (Year t', Month t') = true.
Proof.
  intros Hle. unfold Year, Month.
  assert (Hdays : InvoiceDate t / Timedelta_days 1
                  <= InvoiceDate t' / Timedelta_days 1).
  { apply Z.div_le_mono; auto. unfold Timedelta_days. lia. }
  pose proof (month_of_day_monotone _ _ Hdays) as H.
  destruct (civil_from_days (InvoiceDate t / Timedelta_days 1)) as [[y m] d].
  destruct (civil_from_days (InvoiceDate t' / Timedelta_days 1))
    as [[y' m'] d'].
  exact H.
Qed.

Lemma december_before_january :
  let t := mkTxn (sale "536365" 17850 (Timestamp 2010 12 1) 6 3.39) 20.34 in
  let t' := mkTxn (sale "540001" 12583 (Timestamp 2011 1 7) 2 3.39) 6.78 in
  month_leb (Year t, Month t) (Year t', Month t') = true.
Proof.
  intros t t'. apply (months_follow_time t t').
  vm_compute. discriminate.
Defined.

Lemma year_of_era_recovered (yoe doy : Z) :
  0 <= yoe <= 399 -> 0 <= doy <= 364 ->
  (365 * yoe + yoe / 4 - yoe / 100 + doy
   - (365 * yoe + yoe / 4 - yoe / 100 + doy) / 1460
   + (365 * yoe + yoe / 4 - yoe / 100 + doy) / 36524
   - (365 * yoe + yoe / 4 - yoe / 100 + doy) / 146096) / 365 = yoe.
Proof.
  intros Hy Hd. lia.
Qed.

Lemma civil_from_days_of_date (y m d : Z) :
  1 <= m <= 12 -> 1 <= d <= 28 ->
  civil_from_days (days_from_civil y m d) = (y, m, d).
Proof.
  intros Hm Hd. unfold days_from_civil.
  set (y' := if m <=? 2 then y - 1 else y).
  set (mp := if 2 <? m then m - 3 else m + 9).
  set (era := y' / 400).
  set (yoe := y' - era * 400).
  set (doy := (153 * mp + 2) / 5 + d - 1).
  assert (Hmp : 0 <= mp <= 11) by (subst mp; destruct (Z.ltb_spec 2 m); lia).
  assert (Hyoe : 0 <= yoe <= 399) by (subst yoe era; lia).
  assert (Hdoy : 0 <= doy <= 364) by (subst doy; lia).
  set (doe := yoe * 365 + yoe / 4 - yoe / 100 + doy).
  assert (Hdoe : 0 <= doe <= 146096) by (subst doe; lia).
  unfold civil_from_days.
  replace (era * 146097 + doe - 719468 + 719468) with (doe + era * 146097)
    by lia.
  rewrite Z.div_add by lia. rewrite (Z.div_small doe) by lia.
  replace (doe + era * 146097 - (0 + era) * 146097) with doe by lia.
  cbv zeta.
  assert (Hy : (doe - doe / 1460 + doe / 36524 - doe / 146096) / 365 = yoe).
  { subst doe. replace (yoe * 365) with (365 * yoe) by lia.
    now apply year_of_era_recovered. }
  rewrite Hy.
  replace (doe - (365 * yoe + yoe / 4 - yoe / 100)) with doy
    by (subst doe; lia).
  assert (Hm' : (5 * doy + 2) / 153 = mp) by (subst doy; lia).
  rewrite Hm'.
  assert (Hmonth : (if mp <? 10 then mp + 3 else mp - 9) = m).
  { subst mp. destruct (Z.ltb_spec 2 m).
    - destruct (Z.ltb_spec (m - 3) 10); lia.
    - destruct (Z.ltb_spec (m + 9) 10); lia. }
  rewrite Hmonth. f_equal; [f_equal|].
  - subst yoe y'. destruct (Z.leb_spec m 2); lia.
  - subst doy. lia.
Qed.

(** X16: an invoice made at any time of the day [y-m-d], for a month 1
    to 12 and a day 1 to 28, has [y] in the [Year] column and [m] in the
    [Month] column. *)
Theorem Year_Month_of_Timestamp (t : Txn) (y m d : Z) :
  1 <= m <= 12 -> 1 <= d <= 28 ->
  Timestamp y m d <= InvoiceDate t < Timestamp y m d + Timedelta_days 1 ->
  Year t = y /\ Month t = m.
Proof.
  intros Hm Hd Ht. unfold Year, Month.
  assert (Hz : InvoiceDate t / Timedelta_days 1 = days_from_civil y m d).
  { unfold Timestamp, Timedelta_days in *. lia. }
  rewrite Hz, civil_from_days_of_date by assumption. auto.
Qed.

Lemma morning_sale_Year_Month :
  let t := mkTxn (sale "536365" 17850
                       (Timestamp 2010 12 1 + 30600000000000) 6 3.39) 20.34 in
  Year t = 2010 /\ Month t = 12.
Proof.
  intros t. apply (Year_Month_of_Timestamp t 2010 12 1); [lia | lia |].
  vm_compute. split; [discriminate | reflexivity].
Defined.
